(** * Car-rentals server: notification fan-out and vendor analytics

    A shallow embedding of the listing routes ([routes/cars]), the vendor
    routes ([routes/vendors]), the two notification services, the socket
    helpers and the listing schema, followed by the properties of the
    specification that concern them.

    Conventions of the embedding:
    - a JavaScript [number] is an IEEE-754 binary64 value ([spec_float] with
      precision 53 and maximal exponent 1024); arithmetic is the correctly
      rounded arithmetic of [SpecFloat];
    - engagement counters ([views], [inquiries], [favorites]), model years and
      timestamps (milliseconds since the epoch) are integers, kept in [Z] and
      converted with [ofZ] where the code does floating-point arithmetic on
      them;
    - the collection of listings is a list in natural (insertion) order;
      identifiers are the string forms of the ObjectIds; the queries that cast
      their filter compare them by equality, an aggregation pipeline, which is
      not cast, compares the stored ObjectId with the string it is given;
    - a request handler runs from start to end on the world it is given (no
      other request interleaves at its [await]s), and reads the clock once:
      the parameter [now];
    - documents travel in payloads as they are stored (population and field
      selection are not represented), and the human-readable [message] and
      [suggestion] texts, built with locale-dependent formatting, are not part
      of the payloads;
    - [PUT /api/cars/:id], which assigns an unvalidated request body to the
      document, is embedded for a body that holds a numeric price and nothing
      else. *)

From Stdlib Require Import ZArith Floats.SpecFloat String Ascii DecimalString.
From stdpp Require Import base option list strings gmap.

Local Open Scope Z_scope.

(* ===================================================================== *)
(** ** JavaScript numbers *)
(* ===================================================================== *)

Module JS.

Definition prec : Z := 53.
Definition emax : Z := 1024.

Abbreviation number := spec_float.

#[global] Instance number_eq_dec : EqDecision number.
Proof. solve_decision. Defined.

(** The number denoted by an integer literal or an integer-valued field. *)
Definition ofZ (z : Z) : number := binary_normalize prec emax z 0 false.


Definition add : number -> number -> number := SFadd prec emax.
Definition sub : number -> number -> number := SFsub prec emax.
Definition mul : number -> number -> number := SFmul prec emax.
Definition div : number -> number -> number := SFdiv prec emax.

(** [a < b], [a > b], [a <= b] and [a === b] on numbers. *)
Definition lt (a b : number) : bool := SFltb a b.
Definition gt (a b : number) : bool := SFltb b a.
Definition le (a b : number) : bool := SFleb a b.
Definition strict_eq (a b : number) : bool := SFeqb a b.

Definition is_zero (x : number) : bool :=
  match x with S754_zero _ => true | _ => false end.

(** ToBoolean on a number: [NaN], [+0] and [-0] are falsy. *)
Definition truthy (x : number) : bool :=
  match x with
  | S754_zero _ | S754_nan => false
  | _ => true
  end.

(** [x || d] on numbers. *)
Definition or_else (x d : number) : number := if truthy x then x else d.

(** [Math.abs]. *)
Definition Math_abs (x : number) : number := SFabs x.

(** The signed integer mantissa of a finite number: its value is
    [signed s m * 2 ^ e]. *)
Definition signed (s : bool) (m : positive) : Z := cond_Zopp s (Zpos m).

(** [Math.floor]: the largest integral number not above [x]. *)
Definition Math_floor (x : number) : number :=
  match x with
  | S754_finite s m e =>
      let z := if 0 <=? e then signed s m * 2 ^ e
               else signed s m / 2 ^ (- e) in
      binary_normalize prec emax z 0 s
  | _ => x
  end.

(** [Math.round]: the integral number closest to [x], ties towards
    [+Infinity], that is [floor (x + 1/2)] computed exactly. *)
Definition Math_round (x : number) : number :=
  match x with
  | S754_finite s m e =>
      let z := if 0 <=? e then signed s m * 2 ^ e
               else (2 * signed s m + 2 ^ (- e)) / (2 * 2 ^ (- e)) in
      binary_normalize prec emax z 0 s
  | _ => x
  end.

(** Decimal digits of a natural number. *)
Definition digits (n : Z) : string :=
  NilZero.string_of_uint (N.to_uint (Z.to_N n)).

(** [Number::toString] on a finite number that is at least [10 ^ 21], given
    by its (integer) value [X]: the shortest digit string [s] of [k] digits
    such that [s * 10 ^ (n - k)] reads back as the same number, in exponent
    notation. *)
Definition reads_back (X c : Z) : bool :=
  bool_decide (ofZ c = ofZ X).

Definition shortest_candidates (X : Z) (d k : Z) : list (Z * Z * Z) :=
  (* triples (distance, n, s) *)
  List.flat_map (fun n =>
    let p := 10 ^ (n - k) in
    List.flat_map (fun s =>
      if (10 ^ (k - 1) <=? s) && (s <? 10 ^ k) && reads_back X (s * p)
      then [(Z.abs (s * p - X), n, s)] else [])
      [X / p; X / p + 1])
    [d; d + 1].

Definition closest (cs : list (Z * Z * Z)) : option (Z * Z * Z) :=
  List.fold_left (fun best c =>
    match best with
    | None => Some c
    | Some b => if c.1.1 <? b.1.1 then Some c else Some b
    end) cs None.

Fixpoint shortest (X d : Z) (k : Z) (fuel : nat) : option (Z * Z) :=
  match fuel with
  | O => None
  | S fuel =>
      match closest (shortest_candidates X d k) with
      | Some (_, n, s) => Some (n, s)
      | None => shortest X d (k + 1) fuel
      end
  end.

Definition toString_large (X : Z) : string :=
  let d := Z.of_nat (String.length (digits X)) in
  match shortest X d 1 17 with
  | Some (n, s) =>
      match digits s with
      | String c EmptyString => String c EmptyString +:+ "e+" +:+ digits (n - 1)
      | String c rest => String c ("." +:+ rest) +:+ "e+" +:+ digits (n - 1)
      | EmptyString => EmptyString
      end
  | None => EmptyString
  end.

(** [x.toFixed(1)]. *)
Definition toFixed1 (x : number) : string :=
  match x with
  | S754_nan => "NaN"
  | S754_infinity false => "Infinity"
  | S754_infinity true => "-Infinity"
  | S754_zero _ => "0.0"
  | S754_finite s m e =>
      let sign := if s then "-" else EmptyString in
      let big := if 0 <=? e then 10 ^ 21 <=? Zpos m * 2 ^ e else false in
      if big then sign +:+ toString_large (Zpos m * 2 ^ e)
      else
        let n := if 0 <=? e then 10 * (Zpos m * 2 ^ e)
                 else (20 * Zpos m + 2 ^ (- e)) / (2 * 2 ^ (- e)) in
        let ds := digits n in
        let ds := if (String.length ds <=? 1)%nat then "0" +:+ ds else ds in
        let k := String.length ds in
        sign +:+ substring 0 (k - 1) ds +:+ "." +:+ substring (k - 1) 1 ds
  end.

(** [s.toLowerCase()] on strings of ASCII characters: the letters [A] to [Z]
    are lowered and every other character is kept.  [String.prototype.toLowerCase]
    also lowers the cased characters outside ASCII; two strings that differ
    only in the case of ASCII letters are lowered to the same string by both. *)
Definition lower_ascii (c : ascii) : ascii :=
  let n := nat_of_ascii c in
  if ((65 <=? n) && (n <=? 90))%nat then ascii_of_nat (n + 32) else c.

Fixpoint toLowerCase (s : string) : string :=
  match s with
  | EmptyString => EmptyString
  | String c rest => String (lower_ascii c) (toLowerCase rest)
  end.

End JS.

Import JS.

(* ===================================================================== *)
(** ** Data model ([models/Car]) *)
(* ===================================================================== *)

(** JSON values of request bodies. *)
#[warnings="-register-all"]
Inductive json :=
| JNull
| JBool (b : bool)
| JNum (x : number)
| JStr (s : string)
| JArr (items : list json)
| JObj (fields : list (string * json)).

Record Location := {
  city : string;
  state : string;
  zipCode : option string
}.

#[global] Instance Location_eq_dec : EqDecision Location.
Proof. solve_decision. Defined.

(** One entry of the price-history log. *)
Record PriceEntry := {
  pe_price : number;
  pe_date : Z
}.

#[global] Instance PriceEntry_eq_dec : EqDecision PriceEntry.
Proof. solve_decision. Defined.

(** A listing document.  The descriptive attributes that no operation below
    reads (mileage, condition, colours, media, warranty, ...) are left out.
    [createdAt] and [updatedAt] are the two fields maintained by the schema
    option [timestamps: true]. *)
Record Car := {
  _id : string;
  make : string;
  model : string;
  year : Z;
  price : number;
  originalPrice : option number;
  priceHistory : list PriceEntry;
  location : Location;
  seller : string;
  sellerType : string;
  status : string;
  views : Z;
  inquiries : Z;
  favorites : Z;
  listedAt : Z;
  lastUpdated : Z;
  soldAt : option Z;
  featured : bool;
  urgent : bool;
  createdAt : Z;
  updatedAt : Z
}.

#[global] Instance Car_eq_dec : EqDecision Car.
Proof. solve_decision. Defined.

(** The authenticated user attached to a request by the [authenticate]
    middleware. *)
Record User := {
  user_id : string;
  user_name : string;
  user_role : string
}.

(* ===================================================================== *)
(** ** Real-time events ([socket]) *)
(* ===================================================================== *)

(** Where an event is sent: [io.to(room).emit] or [io.emit]. *)
Inductive Target :=
| Room (name : string)
| Everyone.

Inductive Priority := low | medium | high.

(** Event payloads, one constructor per payload shape built by the code. *)
Inductive Payload :=
| NewListing (car : Car)
| PriceAlert (car : Car) (oldPrice newPrice : number) (discount : string)
| Inquiry (carId : string) (mk md : string) (yr : Z) (pr : number)
    (inquirer : string)
| VendorInquiry (carId : string) (car : Car) (inquirer : string)
    (timestamp : Z) (priority : Priority)
| Milestone (carId : string) (car : Car) (milestone : string)
    (timestamp : Z) (priority : Priority)
| InventoryUpdate (updatedCount : Z) (updates : gmap string json).

Record Emit := {
  target : Target;
  event : string;
  payload : Payload
}.

(** The state a request handler runs in: the listing collection, whether
    [initializeSocket] has run (the module variable [io] is set), and the
    events emitted so far, oldest first. *)
Record World := {
  cars : list Car;
  io_ready : bool;
  outbox : list Emit
}.

(* ===================================================================== *)
(** ** Handlers as state transformers that may throw *)
(* ===================================================================== *)

Inductive outcome (A : Type) :=
| Ok (a : A) (w : World)
| Throw (err : string) (w : World).

Arguments Ok {A} a w.
Arguments Throw {A} err w.

Definition M (A : Type) : Type := World -> outcome A.

Definition ret {A} (a : A) : M A := fun w => Ok a w.

Definition bind {A B} (m : M A) (f : A -> M B) : M B :=
  fun w =>
    match m w with
    | Ok a w' => f a w'
    | Throw e w' => Throw e w'
    end.

Definition throw {A} (err : string) : M A := fun w => Throw err w.

(** [try { m } catch (error) { h error }]. *)
Definition try_catch {A} (m : M A) (h : string -> M A) : M A :=
  fun w =>
    match m w with
    | Ok a w' => Ok a w'
    | Throw e w' => h e w'
    end.

Notation "'let*' x ':=' m 'in' k" := (bind m (fun x => k))
  (at level 10, x name, m at level 100, k at level 200).
Notation "'run' m 'then' k" := (bind m (fun _ => k))
  (at level 10, m at level 100, k at level 200).

Definition world_of {A} (o : outcome A) : World :=
  match o with Ok _ w => w | Throw _ w => w end.

(** [getIO()]. *)
Definition getIO : M unit :=
  fun w => if io_ready w then Ok tt w else Throw "Socket.IO not initialized" w.

(** [io.to(room).emit(event, data)] and [io.emit(event, data)] on the module
    variable [io]; dereferencing it before initialisation is a [TypeError]. *)
Definition emit (t : Target) (ev : string) (p : Payload) : M unit :=
  fun w =>
    if io_ready w
    then Ok tt {| cars := cars w; io_ready := io_ready w;
                  outbox := outbox w ++ [ {| target := t; event := ev; payload := p |} ] |}
    else Throw "TypeError" w.

Definition emitToLocation (cty st : string) (ev : string) (p : Payload) : M unit :=
  emit (Room (toLowerCase (cty +:+ "_" +:+ st))) ev p.

Definition emitToMakeInterests (mk : string) (ev : string) (p : Payload) : M unit :=
  emit (Room ("make_" +:+ toLowerCase mk)) ev p.

Definition emitToUser (userId : string) (ev : string) (p : Payload) : M unit :=
  emit (Room ("user_" +:+ userId)) ev p.

(* ===================================================================== *)
(** ** The listing collection *)
(* ===================================================================== *)

Definition has_id (id : string) (c : Car) : bool := bool_decide (_id c = id).

(** [Car.findById(id)] for an [id] that casts to an ObjectId, as every id read
    off a stored listing does: this is how the services are called. *)
Definition findById (id : string) : M (option Car) :=
  fun w => Ok (List.find (has_id id) (cars w)) w.

Definition is_hex_digit (c : ascii) : bool :=
  let n := nat_of_ascii c in
  ((48 <=? n) && (n <=? 57) || (65 <=? n) && (n <=? 70) || (97 <=? n) && (n <=? 102))%nat.

Fixpoint all_hex (s : string) : bool :=
  match s with
  | EmptyString => true
  | String c rest => is_hex_digit c && all_hex rest
  end.

(** Whether a string consists of 24 hexadecimal digits, the string form of an
    ObjectId. *)
Definition is_ObjectId_string (s : string) : bool :=
  (String.length s =? 24)%nat && all_hex s.

(** [Car.findById(req.params.id)] on a raw path parameter.  The ids of the
    stored listings are ObjectIds, written in lower case, so a parameter that
    names one of them casts; a parameter that names none is answered [null]
    when it has the form of an ObjectId, and is a CastError otherwise.  (A
    parameter that is the id of a stored listing in upper case, or a string of
    12 characters with a driver that casts those, is not what this covers.) *)
Definition findById_param (id : string) : M (option Car) :=
  fun w =>
    match List.find (has_id id) (cars w) with
    | Some car => Ok (Some car) w
    | None => if is_ObjectId_string id then Ok None w else Throw "CastError" w
    end.

Definition set_cars (cs : list Car) (w : World) : World :=
  {| cars := cs; io_ready := io_ready w; outbox := outbox w |}.

(** Replace the first document whose id is [id] by its image under [f]. *)
Fixpoint update_first (id : string) (f : Car -> Car) (cs : list Car) : list Car :=
  match cs with
  | [] => []
  | c :: rest =>
      if has_id id c then f c :: rest else c :: update_first id f rest
  end.

(** [Car.findByIdAndUpdate(id, { $inc: { inquiries: 1 } })]; the schema's
    [timestamps] option adds [updatedAt] to every update. *)
Definition inc_inquiries (now : Z) (c : Car) : Car :=
  {| _id := _id c; make := make c; model := model c; year := year c;
     price := price c; originalPrice := originalPrice c;
     priceHistory := priceHistory c; location := location c;
     seller := seller c; sellerType := sellerType c; status := status c;
     views := views c; inquiries := inquiries c + 1; favorites := favorites c;
     listedAt := listedAt c; lastUpdated := lastUpdated c; soldAt := soldAt c;
     featured := featured c; urgent := urgent c;
     createdAt := createdAt c; updatedAt := now |}.

Definition findByIdAndUpdate_inc_inquiries (now : Z) (id : string) : M unit :=
  fun w => Ok tt (set_cars (update_first id (inc_inquiries now) (cars w)) w).

Definition is_nan (x : number) : bool :=
  match x with S754_nan => true | _ => false end.

(** The validators of the schema on the paths kept in [Car]: the required
    strings are not empty, the price is a number, [status] and [sellerType]
    lie in their enumerations. *)
Definition schema_valid (c : Car) : bool :=
  negb (bool_decide (make c = EmptyString))
  && negb (bool_decide (model c = EmptyString))
  && negb (is_nan (price c))
  && negb (bool_decide (city (location c) = EmptyString))
  && negb (bool_decide (state (location c) = EmptyString))
  && bool_decide (sellerType c ∈ ["private"; "dealer"])
  && bool_decide (status c ∈ ["active"; "sold"; "pending"; "inactive"]).

(** [car.status = s; await car.save()] as it changes the stored document.
    The hook of [timestamps] runs first and sets [updatedAt] when the document
    is modified at that point, that is when [s] is not the stored status; the
    schema's [pre('save')] hook then sets [lastUpdated], in every case. *)
Definition with_status (s : string) (now : Z) (c : Car) : Car :=
  {| _id := _id c; make := make c; model := model c; year := year c;
     price := price c; originalPrice := originalPrice c;
     priceHistory := priceHistory c; location := location c;
     seller := seller c; sellerType := sellerType c; status := s;
     views := views c; inquiries := inquiries c; favorites := favorites c;
     listedAt := listedAt c; lastUpdated := now; soldAt := soldAt c;
     featured := featured c; urgent := urgent c;
     createdAt := createdAt c;
     updatedAt := if bool_decide (status c = s) then updatedAt c else now |}.






(* ===================================================================== *)
(** ** [services/notificationService]: NotificationService *)
(* ===================================================================== *)


(** [((newPrice - oldPrice) / oldPrice) * 100]. *)
Definition priceChange (oldPrice newPrice : number) : number :=
  mul (div (sub newPrice oldPrice) oldPrice) (ofZ 100).

Definition notifyPriceChange (carId : string) (oldPrice newPrice : number) : M unit :=
  let* found := findById carId in
  match found with
  | None => ret tt
  | Some car =>
      run getIO then
      let pc := priceChange oldPrice newPrice in
      if lt pc (ofZ (-5)) then
        let alert := PriceAlert car oldPrice newPrice (toFixed1 (Math_abs pc)) in
        run emitToLocation (city (location car)) (state (location car))
              "priceAlert" alert then
        emitToMakeInterests (make car) "priceAlert" alert
      else ret tt
  end.

Definition notifyInquiry (carId : string) (inquirerName : string) : M unit :=
  let* found := findById carId in
  match found with
  | None => ret tt
  | Some car =>
      emitToUser (seller car) "newInquiry"
        (Inquiry carId (make car) (model car) (year car) (price car) inquirerName)
  end.

(* ===================================================================== *)
(** ** [services/vendorNotificationService]: VendorNotificationService *)
(* ===================================================================== *)

Definition notifyNewInquiry (now : Z) (vendorId carId inquirerName : string) : M unit :=
  let* found := findById carId in
  match found with
  | None => ret tt
  | Some car =>
      emitToUser vendorId "newInquiry"
        (VendorInquiry carId car inquirerName now high)
  end.

Definition milestone_priority (milestone : string) : Priority :=
  if bool_decide (milestone = "high_views") then medium
  else if bool_decide (milestone = "multiple_inquiries") then high
  else if bool_decide (milestone = "trending") then medium
  else low.

Definition notifyPerformanceMilestone (now : Z) (vendorId carId milestone : string) : M unit :=
  let* found := findById carId in
  match found with
  | None => ret tt
  | Some car =>
      emitToUser vendorId "performanceMilestone"
        (Milestone carId car milestone now (milestone_priority milestone))
  end.

(* ===================================================================== *)
(** ** [routes/cars] *)
(* ===================================================================== *)

Record Response := {
  res_status : Z;
  res_message : string
}.

Definition respond (code : Z) (msg : string) : M Response :=
  ret {| res_status := code; res_message := msg |}.






(** [POST /api/cars/:id/inquiry]. *)
Definition post_inquiry (now : Z) (u : User) (id : string) : M Response :=
  try_catch
    (let* found := findById_param id in
     match found with
     | None => respond 404 "Car not found"
     | Some car =>
         run findByIdAndUpdate_inc_inquiries now id then
         run notifyInquiry (_id car) (user_name u) then
         run notifyNewInquiry now (seller car) (_id car) (user_name u) then
         let* updatedCar := findById_param id in
         run match updatedCar with
             | Some uc =>
                 if inquiries uc =? 5
                 then notifyPerformanceMilestone now (seller car) (_id car)
                        "multiple_inquiries"
                 else ret tt
             | None => ret tt
             end then
         respond 200 "Inquiry recorded"
     end)
    (fun _ => respond 500 "Server error").

Definition valid_statuses : list string := ["active"; "inactive"; "sold"; "pending"].



(* ===================================================================== *)
(** ** [routes/vendors]: bulk update *)
(* ===================================================================== *)

Definition validUpdates : list string := ["status"; "featured"; "urgent"; "price"].

(** [Object.keys(updates).forEach(key => { if (validUpdates.includes(key))
    updateData[key] = updates[key]; })]. *)
Definition updateData_of (updates : gmap string json) : gmap string json :=
  filter (λ kv, kv.1 ∈ validUpdates) updates.

(** The [$set] document after casting to the schema types. *)
Record SetDoc := {
  set_status : option string;
  set_featured : option bool;
  set_urgent : option bool;
  set_price : option number
}.

(** [$set] on one document, with the [updatedAt] added by [timestamps]. *)
Definition apply_set (d : SetDoc) (now : Z) (c : Car) : Car :=
  {| _id := _id c; make := make c; model := model c; year := year c;
     price := default (price c) (set_price d);
     originalPrice := originalPrice c;
     priceHistory := priceHistory c; location := location c;
     seller := seller c; sellerType := sellerType c;
     status := default (status c) (set_status d);
     views := views c; inquiries := inquiries c; favorites := favorites c;
     listedAt := listedAt c; lastUpdated := lastUpdated c; soldAt := soldAt c;
     featured := default (featured c) (set_featured d);
     urgent := default (urgent c) (set_urgent d);
     createdAt := createdAt c; updatedAt := now |}.

(** The filter [{ _id: { $in: carIds }, seller: vendorId }]. *)
Definition bulk_match (carIds : list string) (vendorId : string) (c : Car) : Prop :=
  _id c ∈ carIds ∧ seller c = vendorId.

#[global] Instance bulk_match_dec carIds vendorId c : Decision (bulk_match carIds vendorId c).
Proof. unfold bulk_match. apply _. Defined.

Definition bulk_apply (carIds : list string) (vendorId : string) (d : SetDoc)
    (now : Z) (c : Car) : Car :=
  if decide (bulk_match carIds vendorId c) then apply_set d now c else c.

(** [Car.updateMany(filter, { $set })] for [carIds] that cast to ObjectIds;
    the result is [modifiedCount], the number of matched documents that the
    update changed. *)
Definition updateMany (carIds : list string) (vendorId : string) (d : SetDoc)
    (now : Z) : M Z :=
  fun w =>
    let modified :=
      filter (λ c, bulk_match carIds vendorId c ∧ apply_set d now c ≠ c) (cars w) in
    Ok (Z.of_nat (length modified))
       (set_cars (bulk_apply carIds vendorId d now <$> cars w) w).

Section BulkUpdate.

(** How the document mapper casts a JSON value to the schema type of a path
    ([String], [Boolean], [Number]); [None] is a cast error. *)
Variable cast_string : json -> option string.
Variable cast_boolean : json -> option bool.
Variable cast_number : json -> option number.

Definition cast_path {A} (cast : json -> option A) (v : option json) : option (option A) :=
  match v with
  | None => Some None
  | Some j => match cast j with Some a => Some (Some a) | None => None end
  end.

Definition cast_update (updateData : gmap string json) : option SetDoc :=
  match cast_path cast_string (updateData !! "status"),
        cast_path cast_boolean (updateData !! "featured"),
        cast_path cast_boolean (updateData !! "urgent"),
        cast_path cast_number (updateData !! "price") with
  | Some s, Some f, Some u, Some p =>
      Some {| set_status := s; set_featured := f; set_urgent := u; set_price := p |}
  | _, _, _, _ => None
  end.

(** [POST /api/vendors/bulk-update], behind the [requireVendor] middleware.
    [carIds] is [None] when [req.body.carIds] is absent or not an array, and
    otherwise the list of its ids; [updates] is [None] when
    [req.body.updates] is absent or null, and otherwise the map of its own
    enumerable properties. *)
Definition post_bulk_update (now : Z) (u : User) (carIds : option (list string))
    (updates : option (gmap string json)) : M Response :=
  if negb (bool_decide (user_role u = "vendor"))
  then respond 403 "Vendor access required"
  else
    try_catch
      (match carIds with
       | None | Some [] => respond 400 "Car IDs required"
       | Some ids =>
           match updates with
           | None => throw "TypeError"
           | Some upd =>
               let updateData := updateData_of upd in
               if bool_decide (updateData = ∅)
               then respond 400 "No valid updates provided"
               else
                 match cast_update updateData with
                 | None => throw "CastError"
                 | Some d =>
                     let* modifiedCount := updateMany ids (user_id u) d now in
                     run getIO then
                     run emit (Room ("user_" +:+ user_id u)) "inventoryUpdate"
                           (InventoryUpdate modifiedCount updateData) then
                     respond 200 ("Updated " +:+ digits modifiedCount +:+ " cars")
                 end
           end
       end)
      (fun _ => respond 500 "Bulk update error").

End BulkUpdate.

(* ===================================================================== *)
(** ** [routes/vendors]: leads *)
(* ===================================================================== *)

(** A computation that records every division it performs, as the pair of
    dividend and divisor. *)
Definition Traced (A : Type) : Type := A * list (number * number).

Definition retT {A} (a : A) : Traced A := (a, []).

Definition bindT {A B} (m : Traced A) (f : A -> Traced B) : Traced B :=
  let r := f m.1 in (r.1, m.2 ++ r.2).

Definition divT (a b : number) : Traced number := (div a b, [(a, b)]).

Record Lead := {
  lead_car : Car;
  leadScore : number;
  urgency : string;
  daysListed : number
}.

(** [daysListed > 30 ? 'high' : daysListed > 14 ? 'medium' : 'low']. *)
Definition urgencyScore (days : number) : string :=
  if gt days (ofZ 30) then "high"
  else if gt days (ofZ 14) then "medium"
  else "low".

(** [car.views > 0 ? (car.inquiries / car.views) * 100 : 0]. *)
Definition inquiryRateT (car : Car) : Traced number :=
  if gt (ofZ (views car)) (ofZ 0)
  then bindT (divT (ofZ (inquiries car)) (ofZ (views car)))
             (fun q => retT (mul q (ofZ 100)))
  else retT (ofZ 0).

(** The body of the [map] callback of [GET /api/vendors/leads]. *)
Definition leadOfT (now : Z) (car : Car) : Traced Lead :=
  bindT (divT (sub (ofZ now) (ofZ (listedAt car))) (ofZ (1000 * 60 * 60 * 24)))
    (fun elapsed =>
  let days := Math_floor elapsed in
  bindT (inquiryRateT car) (fun inquiryRate =>
  let urgencyScore := urgencyScore days in
  bindT (divT (Math_round (mul inquiryRate (ofZ 10))) (ofZ 10)) (fun score =>
  retT {| lead_car := car; leadScore := score; urgency := urgencyScore;
          daysListed := days |}))).

Definition leadOf (now : Z) (car : Car) : Lead := (leadOfT now car).1.

Definition leadsWithScores (now : Z) (carsWithInquiries : list Car) : list Lead :=
  leadOf now <$> carsWithInquiries.

(* ===================================================================== *)
(** ** [routes/vendors]: dashboard *)
(* ===================================================================== *)

(** One group of the overview aggregation ([$group] by [status]). *)
Record OverviewRow := {
  row_id : string;
  row_count : number;
  row_totalValue : number;
  row_avgPrice : number;
  row_totalViews : number;
  row_totalInquiries : number
}.

(** The [stats] object is a map from property names to numbers. *)
Definition stats_init : gmap string number :=
  <["active" := ofZ 0]> (<["sold" := ofZ 0]> (<["pending" := ofZ 0]>
  (<["inactive" := ofZ 0]> (<["totalValue" := ofZ 0]> (<["avgPrice" := ofZ 0]>
  (<["totalViews" := ofZ 0]> (<["totalInquiries" := ofZ 0]> ∅))))))).

(** Reading a property; a missing property read in arithmetic is [NaN]. *)
Definition prop (k : string) (o : gmap string number) : number :=
  default S754_nan (o !! k).

(** The body of [overview.forEach]. *)
Definition stats_step (stats : gmap string number) (item : OverviewRow)
    : gmap string number :=
  let stats := <[row_id item := row_count item]> stats in
  let stats := <["totalValue" :=
                 add (prop "totalValue" stats) (or_else (row_totalValue item) (ofZ 0))]> stats in
  let stats := <["totalViews" :=
                 add (prop "totalViews" stats) (or_else (row_totalViews item) (ofZ 0))]> stats in
  <["totalInquiries" :=
    add (prop "totalInquiries" stats) (or_else (row_totalInquiries item) (ofZ 0))]> stats.

Definition totalCars (stats : gmap string number) : number :=
  add (add (add (prop "active" stats) (prop "sold" stats)) (prop "pending" stats))
      (prop "inactive" stats).

Definition dashboard_stats (overview : list OverviewRow) : gmap string number :=
  let stats := foldl stats_step stats_init overview in
  <["avgPrice" := if gt (totalCars stats) (ofZ 0)
                  then div (prop "totalValue" stats) (totalCars stats)
                  else ofZ 0]> stats.

Record Insights := {
  conversionRate : string;
  avgViewsPerCar : number;
  avgInquiriesPerCar : number
}.

Definition dashboard_insights (overview : list OverviewRow) : Insights :=
  let stats := dashboard_stats overview in
  let totalCars := totalCars (foldl stats_step stats_init overview) in
  {| conversionRate :=
       if gt (prop "totalInquiries" stats) (ofZ 0)
       then toFixed1 (mul (div (prop "sold" stats) (prop "totalInquiries" stats)) (ofZ 100))
       else "0";
     avgViewsPerCar :=
       if gt totalCars (ofZ 0)
       then Math_round (div (prop "totalViews" stats) totalCars) else ofZ 0;
     avgInquiriesPerCar :=
       if gt totalCars (ofZ 0)
       then Math_round (div (prop "totalInquiries" stats) totalCars) else ofZ 0 |}.

(* ===================================================================== *)
(** ** [routes/vendors]: pricing recommendations *)
(* ===================================================================== *)

(** [$avg]: the arithmetic mean, [null] on no input. *)
Definition mongo_avg (xs : list number) : option number :=
  match xs with
  | [] => None
  | _ => Some (div (foldl add (ofZ 0) xs) (ofZ (Z.of_nat (length xs))))
  end.

(** The [$match] of the [$lookup] sub-pipeline, for the outer listing [c]. *)
Definition comparable (c d : Car) : Prop :=
  make d = make c ∧ model d = model c ∧
  year c - 2 ≤ year d ∧ year d ≤ year c + 2 ∧ status d = "active".

#[global] Instance comparable_dec c d : Decision (comparable c d).
Proof. unfold comparable. apply _. Defined.

(** [marketData.avgMarketPrice] at index 0. *)
Definition marketData (store : list Car) (c : Car) : option number :=
  mongo_avg (price <$> filter (comparable c) store).

(** A document leaving the pricing pipeline. *)
Record PricingRow := {
  pr_car : Car;
  marketPrice : number;
  priceDiff : number
}.

(** [$addFields] followed by the second [$match]. *)
Definition pricing_row (store : list Car) (c : Car) : option PricingRow :=
  match marketData store c with
  | None => None
  | Some mp =>
      let diff := sub (price c) mp in
      if gt diff (ofZ 5000) || lt diff (ofZ (-3000))
      then Some {| pr_car := c; marketPrice := mp; priceDiff := diff |}
      else None
  end.

Definition vendor_active (vendorId : string) (c : Car) : Prop :=
  seller c = vendorId ∧ status c = "active".

#[global] Instance vendor_active_dec vendorId c : Decision (vendor_active vendorId c).
Proof. unfold vendor_active. apply _. Defined.

(** A value as the database compares it.  The schema stores [seller] as an
    ObjectId; the vendor routes take [vendorId] from [req.user.id], the string
    form of the user's id.  [Model.find], [countDocuments] and [updateMany]
    cast their filter to the types of the schema, so that they compare ids;
    [Model.aggregate] sends its pipeline as it is written, and in the database
    a string equals no ObjectId. *)
Inductive Value :=
| VObjectId (hex : string)
| VString (s : string).

#[global] Instance Value_eq_dec : EqDecision Value.
Proof. solve_decision. Defined.

(** The filter [{ seller: vendorId }] inside an aggregation pipeline. *)
Definition aggregate_seller (vendorId : string) (c : Car) : Prop :=
  VObjectId (seller c) = VString vendorId.

#[global] Instance aggregate_seller_dec vendorId c : Decision (aggregate_seller vendorId c).
Proof. unfold aggregate_seller. apply _. Defined.

(** The stages of the pricing pipeline after its first [$match], on the
    documents [matched] that pass it: [$lookup], [$addFields], the second
    [$match] and [$limit: 5]. *)
Definition pricing_stages (store matched : list Car) : list PricingRow :=
  take 5 (omap (pricing_row store) matched).

(** The [pricingInsights] aggregation; its first stage is
    [{ $match: { seller: vendorId, status: 'active' } }]. *)
Definition pricingInsights (store : list Car) (vendorId : string) : list PricingRow :=
  pricing_stages store
    (filter (λ c, aggregate_seller vendorId c ∧ status c = "active") store).

(** One entry of [recommendations.pricing]: the row, whether the suggestion is
    to reduce ([priceDiff > 0]) or to increase the price, the amount
    [Math.abs(priceDiff)] quoted in it, and the priority. *)
Record PricingRecommendation := {
  rec_row : PricingRow;
  rec_reduce : bool;
  rec_amount : number;
  rec_priority : Priority
}.

Definition pricing_recommendation (r : PricingRow) : PricingRecommendation :=
  {| rec_row := r;
     rec_reduce := gt (priceDiff r) (ofZ 0);
     rec_amount := Math_abs (priceDiff r);
     rec_priority := if gt (Math_abs (priceDiff r)) (ofZ 10000) then high else medium |}.

Definition recommendations_pricing (store : list Car) (vendorId : string)
    : list PricingRecommendation :=
  pricing_recommendation <$> pricingInsights store vendorId.

(* ===================================================================== *)
(** ** [routes/vendors]: the overview aggregation of the dashboard *)
(* ===================================================================== *)

(** One group of [$group: { _id: '$status', ... }]: the documents of [cs] with
    status [s].  The sums run in stored order. *)
Definition group_row (s : string) (cs : list Car) : OverviewRow :=
  let g := filter (λ c, status c = s) cs in
  {| row_id := s;
     row_count := ofZ (Z.of_nat (length g));
     row_totalValue := foldl add (ofZ 0) (price <$> g);
     row_avgPrice := default (ofZ 0) (mongo_avg (price <$> g));
     row_totalViews := ofZ (foldl Z.add 0 (views <$> g));
     row_totalInquiries := ofZ (foldl Z.add 0 (inquiries <$> g)) |}.

(** The [$group] stage: one group for each status that occurs, here in the
    order of first occurrence. *)
Definition group_by_status (cs : list Car) : list OverviewRow :=
  (λ s, group_row s cs) <$> remove_dups (status <$> cs).

(** The overview aggregation of [GET /api/vendors/dashboard]:
    [{ $match: { seller: vendorId } }] followed by the [$group]. *)
Definition dashboard_overview (store : list Car) (vendorId : string) : list OverviewRow :=
  group_by_status (filter (aggregate_seller vendorId) store).

(* ===================================================================== *)
(** ** Observations on worlds *)
(* ===================================================================== *)

(** The world [w] after the events [es] have been emitted. *)
Definition push (es : list Emit) (w : World) : World :=
  {| cars := cars w; io_ready := io_ready w; outbox := outbox w ++ es |}.

(** The performance-milestone events among [es]. *)
Definition milestones (es : list Emit) : list Emit :=
  filter (λ e, event e = "performanceMilestone") es.

(** The event of a bulk update by [u] that modified [n] listings with the
    applied fields [updateData]. *)
Definition inventoryUpdate_event (u : User) (n : Z) (updateData : gmap string json) : Emit :=
  {| target := Room ("user_" +:+ user_id u); event := "inventoryUpdate";
     payload := InventoryUpdate n updateData |}.

(** The world after one inquiry request on listing [id] at each of the times
    [nows], in turn. *)
Definition inquire_all (nows : list Z) (u : User) (id : string) (w : World) : World :=
  foldl (λ w now, world_of (post_inquiry now u id w)) w nows.

(** How many positions hold a different document in [after] than in
    [before]. *)
Definition changed_count (before after : list Car) : Z :=
  Z.of_nat (length (filter (λ p, p.1 ≠ p.2) (zip before after))).

(** Everything of a listing but the four fields of the bulk-update whitelist
    and the automatic [updatedAt]. *)
Definition unlisted_part (c : Car) :=
  (_id c, make c, model c, year c, originalPrice c, priceHistory c,
   location c, seller c, sellerType c, views c, inquiries c, favorites c,
   listedAt c, lastUpdated c, soldAt c, createdAt c).

(** The comparables of the pricing recommendation as the specification words
    them: same make and model, model year within two years, active, and not
    one of the vendor's own listings. *)
Definition comparable_as_specified (vendorId : string) (c d : Car) : Prop :=
  comparable c d ∧ seller d ≠ vendorId.

#[global] Instance comparable_as_specified_dec vendorId c d :
  Decision (comparable_as_specified vendorId c d).
Proof. unfold comparable_as_specified. apply _. Defined.

Definition market_mean_as_specified (store : list Car) (vendorId : string) (c : Car)
    : option number :=
  mongo_avg (price <$> filter (comparable_as_specified vendorId c) store).

(** The pricing rule as the specification words it: every active listing of
    the vendor that is more than 5000 above, or more than 3000 below, the mean
    of its comparables gets a recommendation. *)
Definition pricing_as_specified (store : list Car) (vendorId : string) : Prop :=
  ∀ c mean,
    c ∈ store → vendor_active vendorId c →
    market_mean_as_specified store vendorId c = Some mean →
    gt (sub (price c) mean) (ofZ 5000) || lt (sub (price c) mean) (ofZ (-3000)) = true →
    ∃ r, r ∈ recommendations_pricing store vendorId ∧ pr_car (rec_row r) = c.



(** The conversion rate as the specification words it, on the listings [cs]
    of a vendor: the number of sold listings over the total of inquiries,
    times 100, in tenths (a half rounds up); [None] stands for the string "0"
    of a vendor without inquiries. *)
Definition conversion_tenths_as_specified (cs : list Car) : option Z :=
  let sold := Z.of_nat (length (filter (λ c, status c = "sold") cs)) in
  let totalInquiries := foldl Z.add 0 (inquiries <$> cs) in
  if totalInquiries =? 0 then None
  else Some ((2 * (1000 * sold) + totalInquiries) / (2 * totalInquiries)).


(* ===================================================================== *)
(** ** Sample data *)
(* ===================================================================== *)

Definition los_angeles : Location :=
  {| city := "Los Angeles"; state := "CA"; zipCode := None |}.

(** A listing of seller [sellerId], priced [p], with [n] inquiries. *)
Definition sample_car (id mk md : string) (yr : Z) (p : Z) (sellerId : string)
    (n : Z) : Car :=
  {| _id := id; make := mk; model := md; year := yr; price := ofZ p;
     originalPrice := Some (ofZ p);
     priceHistory := [ {| pe_price := ofZ p; pe_date := 1000 |} ];
     location := los_angeles; seller := sellerId; sellerType := "dealer";
     status := "active"; views := 40; inquiries := n; favorites := 0;
     listedAt := 1000; lastUpdated := 1000; soldAt := None;
     featured := false; urgent := false; createdAt := 1000; updatedAt := 1000 |}.

Definition camry : Car := sample_car "c1" "Toyota" "Camry" 2022 100 "v1" 4.

(** Identifiers as the database writes them: 24 hexadecimal digits. *)
Definition vera_id : string := "64b7f0c2a1e4d3b5c6f7a801".
Definition omar_id : string := "64b7f0c2a1e4d3b5c6f7a802".

Definition vera : User :=
  {| user_id := vera_id; user_name := "Vera"; user_role := "vendor" |}.

(** Listings of vendor Vera: an active one priced 35000, a sold one and a
    pending one; they have 4, 3 and 2 inquiries. *)
Definition accord : Car :=
  sample_car "64b7f0c2a1e4d3b5c6f7a9c1" "Honda" "Accord" 2021 35000 vera_id 4.

Definition sold_pilot : Car :=
  with_status "sold" 2000
    (sample_car "64b7f0c2a1e4d3b5c6f7a9c2" "Honda" "Pilot" 2019 26000 vera_id 3).

Definition pending_fit : Car :=
  with_status "pending" 2000
    (sample_car "64b7f0c2a1e4d3b5c6f7a9c3" "Honda" "Fit" 2018 9000 vera_id 2).

(** Two comparable listings of another seller, at 27000 and 29000. *)
Definition rival_accords : list Car :=
  [ sample_car "64b7f0c2a1e4d3b5c6f7a9d1" "Honda" "Accord" 2020 27000 omar_id 1;
    sample_car "64b7f0c2a1e4d3b5c6f7a9d2" "Honda" "Accord" 2022 29000 omar_id 0 ].

Definition vera_market : list Car :=
  [accord; sold_pilot; pending_fit] ++ rival_accords.


Definition sample_world (cs : list Car) : World :=
  {| cars := cs; io_ready := true; outbox := [] |}.

Definition vendor1 : User :=
  {| user_id := "v1"; user_name := "Vera"; user_role := "vendor" |}.

Definition buyer1 : User :=
  {| user_id := "u7"; user_name := "Bob"; user_role := "user" |}.



(** One group of the dashboard overview. *)
Definition sample_row (id : string) (count inquiriesTotal : Z) : OverviewRow :=
  {| row_id := id; row_count := ofZ count; row_totalValue := ofZ (count * 20000);
     row_avgPrice := ofZ 20000; row_totalViews := ofZ (count * 50);
     row_totalInquiries := ofZ inquiriesTotal |}.

(** Casts that accept a value of the schema type only. *)
Definition exact_string (v : json) : option string :=
  match v with JStr s => Some s | _ => None end.

Definition exact_boolean (v : json) : option bool :=
  match v with JBool b => Some b | _ => None end.

Definition exact_number (v : json) : option number :=
  match v with JNum x => Some x | _ => None end.

Definition civic : Car := sample_car "c2" "Honda" "Civic" 2021 24000 "v2" 1.


From stdpp Require sorting.

(* ===================================================================== *)
(** ** [socket]: connections and rooms *)
(* ===================================================================== *)

(** The payload of a verified identity token, as [routes/auth] signs it. *)
Record Decoded := {
  tok_id : string;
  tok_email : string;
  tok_role : string
}.

(** A live connection: [socket.data.user] and the rooms it has joined. *)
Record Socket := {
  data_user : option Decoded;
  rooms : gset string
}.

Definition join (room : string) (s : Socket) : Socket :=
  {| data_user := data_user s; rooms := {[room]} ∪ rooms s |}.

(** What a client can do with a connection.  The payloads are taken to be
    well-formed ([location] has string [city] and [state], [interests] has
    the two arrays). *)
Inductive ClientEvent :=
| Connect (token : option string)
| JoinLocation (cty st : string)
| JoinInterests (makes bodyTypes : list string)
| LiveSearch (searchQuery : string)
| SendMessage
| JoinAdminRoom
| JoinUserRoom
| SetPriceAlert
| Disconnect.

(** The sockets that [io.to(room).emit] or [io.emit] reaches. *)
Definition recipients (t : Target) (ss : gmap string Socket) : gset string :=
  match t with
  | Room r => dom (filter (λ kv, r ∈ rooms kv.2) ss)
  | Everyone => dom ss
  end.

Section SocketServer.

(** [jwt.verify(token, process.env.JWT_SECRET)]; [None] when it throws. *)
Variable verify : string -> option Decoded.

(** The authentication middleware of [io.use]: no token, or a token that does
    not verify, gives an anonymous connection. *)
Definition authenticate_socket (token : option string) : option Decoded :=
  match token with
  | None => None
  | Some t => if bool_decide (t = EmptyString) then None else verify t
  end.

(** [io.on('connection')]: the socket starts in the room of its own id and,
    when authenticated, in its personal room. *)
Definition connect (sid : string) (token : option string)
    (ss : gmap string Socket) : gmap string Socket :=
  let u := authenticate_socket token in
  <[sid := {| data_user := u;
              rooms := match u with
                       | Some d => {["user_" +:+ tok_id d]} ∪ {[sid]}
                       | None => {[sid]}
                       end |}]> ss.

Definition joinLocation (cty st : string) (s : Socket) : Socket :=
  join (toLowerCase (cty +:+ "_" +:+ st)) s.

Definition joinInterests (makes bodyTypes : list string) (s : Socket) : Socket :=
  let s := foldl (λ s mk, join ("make_" +:+ toLowerCase mk) s) s makes in
  foldl (λ s bt, join ("bodyType_" +:+ toLowerCase bt) s) s bodyTypes.

Definition joinAdminRoom (s : Socket) : Socket :=
  match data_user s with
  | Some d => if bool_decide (tok_role d = "vendor") then join "admins" s else s
  | None => s
  end.

Definition joinUserRoom (s : Socket) : Socket :=
  match data_user s with
  | Some d => join ("user_" +:+ tok_id d) s
  | None => s
  end.

Definition setPriceAlert (s : Socket) : Socket :=
  match data_user s with
  | Some d => join ("priceAlert_" +:+ tok_id d) s
  | None => s
  end.

(** The effect of one client event of socket [sid] on the connections.
    [liveSearch] and [sendMessage] only emit; a disconnected socket is in no
    room any more. *)
Definition socket_step (ss : gmap string Socket) (e : string * ClientEvent)
    : gmap string Socket :=
  let sid := e.1 in
  match e.2 with
  | Connect token => connect sid token ss
  | JoinLocation cty st => alter (joinLocation cty st) sid ss
  | JoinInterests makes bodyTypes => alter (joinInterests makes bodyTypes) sid ss
  | LiveSearch _ => ss
  | SendMessage => ss
  | JoinAdminRoom => alter joinAdminRoom sid ss
  | JoinUserRoom => alter joinUserRoom sid ss
  | SetPriceAlert => alter setPriceAlert sid ss
  | Disconnect => delete sid ss
  end.

Definition socket_run (es : list (string * ClientEvent)) (ss : gmap string Socket)
    : gmap string Socket :=
  foldl socket_step ss es.

End SocketServer.

(** Whether a string contains an underscore. *)
Fixpoint has_underscore (s : string) : bool :=
  match s with
  | EmptyString => false
  | String c rest => bool_decide (c = "_"%char) || has_underscore rest
  end.

(** Only sockets authenticated as vendors are in the [admins] room. *)
Definition admins_are_vendors (ss : gmap string Socket) : Prop :=
  ∀ sid s, ss !! sid = Some s → "admins" ∈ rooms s →
    ∃ d, data_user s = Some d ∧ tok_role d = "vendor".

(** A token verifier that knows one token, of user [v1]. *)
Definition sample_verify (t : string) : option Decoded :=
  if bool_decide (t = "tok-v1")
  then Some {| tok_id := "v1"; tok_email := "vera@example.com"; tok_role := "vendor" |}
  else None.

(* ===================================================================== *)
(** ** [routes/cars]: favorites *)
(* ===================================================================== *)

(** [Car.findByIdAndUpdate(id, { $inc: { favorites: 1 } })]. *)
Definition inc_favorites (now : Z) (c : Car) : Car :=
  {| _id := _id c; make := make c; model := model c; year := year c;
     price := price c; originalPrice := originalPrice c;
     priceHistory := priceHistory c; location := location c;
     seller := seller c; sellerType := sellerType c; status := status c;
     views := views c; inquiries := inquiries c; favorites := favorites c + 1;
     listedAt := listedAt c; lastUpdated := lastUpdated c; soldAt := soldAt c;
     featured := featured c; urgent := urgent c;
     createdAt := createdAt c; updatedAt := now |}.

(** [POST /api/cars/:id/favorite]. *)
Definition post_favorite (now : Z) (u : User) (id : string) : M Response :=
  try_catch
    (let* found := findById_param id in
     match found with
     | None => respond 404 "Car not found"
     | Some _ =>
         run (fun w => Ok tt (set_cars (update_first id (inc_favorites now) (cars w)) w)) then
         respond 200 "Car favorited"
     end)
    (fun _ => respond 500 "Server error").

(** The world after the favorite requests [reqs] (time and user of each) on
    listing [id], in turn. *)
Definition favorite_all (reqs : list (Z * User)) (id : string) (w : World) : World :=
  foldl (λ w r, world_of (post_favorite r.1 r.2 id w)) w reqs.

(* ===================================================================== *)
(** ** [routes/vendors]: analytics *)
(* ===================================================================== *)

(** The closure [calculateTrend]. *)
Definition calculateTrend (current previous : number) : number :=
  if strict_eq previous (ofZ 0) then ofZ 0
  else mul (div (sub current previous) previous) (ofZ 100).

(** The single group of the current-period, previous-period and performance
    aggregations. *)
Record CurrentStats := {
  cs_totalListings : number;
  cs_totalViews : number;
  cs_totalInquiries : number;
  cs_avgPrice : number;
  cs_activeListings : number
}.

Record PreviousStats := {
  ps_totalViews : number;
  ps_totalInquiries : number;
  ps_avgPrice : number;
  ps_totalListings : number
}.

Record PerformanceData := {
  pd_avgViewsPerListing : number;
  pd_avgInquiriesPerListing : number;
  pd_avgDaysToSell : number
}.

Record AnalyticsOverview := {
  ao_totalListings : number;
  ao_totalViews : number;
  ao_totalInquiries : number;
  ao_avgPrice : number;
  ao_conversionRate : number;
  ao_activeListings : number
}.

Record AnalyticsTrends := {
  viewsChange : number;
  inquiriesChange : number;
  at_priceChange : number;
  listingsChange : number
}.

Record AnalyticsPerformance := {
  avgViewsPerListing : number;
  avgInquiriesPerListing : number;
  avgDaysToSell : number;
  mostPopularMake : string
}.

Record Analytics := {
  an_overview : AnalyticsOverview;
  an_trends : AnalyticsTrends;
  an_topPerforming : list Car;
  an_performance : AnalyticsPerformance
}.

(** The body of [GET /api/vendors/analytics] after the five queries: each of
    [currentStats], [previousStats], [performanceData] and [popularMake] is
    the first row of its aggregation, if any. *)
Definition analytics (currentStats : option CurrentStats)
    (previousStats : option PreviousStats) (topPerforming : list Car)
    (performanceData : option PerformanceData) (popularMake : option string)
    : Analytics :=
  let current := default {| cs_totalListings := ofZ 0; cs_totalViews := ofZ 0;
                            cs_totalInquiries := ofZ 0; cs_avgPrice := ofZ 0;
                            cs_activeListings := ofZ 0 |} currentStats in
  let previous := default {| ps_totalViews := ofZ 0; ps_totalInquiries := ofZ 0;
                             ps_avgPrice := ofZ 0; ps_totalListings := ofZ 0 |}
                    previousStats in
  let performance := default {| pd_avgViewsPerListing := ofZ 0;
                                pd_avgInquiriesPerListing := ofZ 0;
                                pd_avgDaysToSell := ofZ 30 |} performanceData in
  {| an_overview :=
       {| ao_totalListings := cs_totalListings current;
          ao_totalViews := cs_totalViews current;
          ao_totalInquiries := cs_totalInquiries current;
          ao_avgPrice := Math_round (cs_avgPrice current);
          ao_conversionRate :=
            if gt (cs_totalViews current) (ofZ 0)
            then mul (div (cs_totalInquiries current) (cs_totalViews current)) (ofZ 100)
            else ofZ 0;
          ao_activeListings := cs_activeListings current |};
     an_trends :=
       {| viewsChange := calculateTrend (cs_totalViews current) (ps_totalViews previous);
          inquiriesChange :=
            calculateTrend (cs_totalInquiries current) (ps_totalInquiries previous);
          at_priceChange := calculateTrend (cs_avgPrice current) (ps_avgPrice previous);
          listingsChange :=
            calculateTrend (cs_totalListings current) (ps_totalListings previous) |};
     an_topPerforming := topPerforming;
     an_performance :=
       {| avgViewsPerListing :=
            div (Math_round (mul (pd_avgViewsPerListing performance) (ofZ 10))) (ofZ 10);
          avgInquiriesPerListing :=
            div (Math_round (mul (pd_avgInquiriesPerListing performance) (ofZ 10))) (ofZ 10);
          avgDaysToSell := Math_round (pd_avgDaysToSell performance);
          mostPopularMake :=
            match popularMake with
            | Some m => if bool_decide (m = EmptyString) then "N/A" else m
            | None => "N/A"
            end |} |}.

(* ===================================================================== *)
(** ** [routes/cars]: updating the price *)
(* ===================================================================== *)

(** The stored document after [car.priceHistory.push({ price })] (when the
    change is [tracked]), [Object.assign(car, { price })] and [car.save()].
    Assigning a value strictly equal to the present one does not modify the
    path; the hook of [timestamps] sets [updatedAt] when the document is
    modified, that is when the price is; the schema's [pre('save')] hook then
    sets [lastUpdated], in every case. *)
Definition with_price (newPrice : number) (tracked : bool) (now : Z) (c : Car) : Car :=
  {| _id := _id c; make := make c; model := model c; year := year c;
     price := if strict_eq newPrice (price c) then price c else newPrice;
     originalPrice := originalPrice c;
     priceHistory :=
       if tracked
       then priceHistory c ++ [ {| pe_price := newPrice; pe_date := now |} ]
       else priceHistory c;
     location := location c;
     seller := seller c; sellerType := sellerType c; status := status c;
     views := views c; inquiries := inquiries c; favorites := favorites c;
     listedAt := listedAt c; lastUpdated := now; soldAt := soldAt c;
     featured := featured c; urgent := urgent c;
     createdAt := createdAt c;
     updatedAt := if strict_eq newPrice (price c) then updatedAt c else now |}.

(** [car.save()] on the document [car] loaded before: validation runs on
    the document as it now is, and the modified paths are written to the
    stored document.  The attributes left out of [Car] are taken to pass. *)
Definition save_price (car : Car) (newPrice : number) (tracked : bool)
    (now : Z) : M unit :=
  fun w =>
    if schema_valid (with_price newPrice tracked now car)
    then Ok tt (set_cars (update_first (_id car)
                            (with_price newPrice tracked now) (cars w)) w)
    else Throw "ValidationError" w.

(** [PUT /api/cars/:id] for a request body whose only property is a numeric
    [price]. *)
Definition put_price (now : Z) (u : User) (id : string) (newPrice : number)
    : M Response :=
  try_catch
    (let* found := findById_param id in
     match found with
     | None => respond 404 "Car not found"
     | Some car =>
         if negb (bool_decide (seller car = user_id u))
         then respond 403 "Not authorized"
         else
           let tracked := truthy newPrice && negb (strict_eq newPrice (price car)) in
           run (if tracked
                then notifyPriceChange (_id car) (price car) newPrice
                else ret tt) then
           run save_price car newPrice tracked now then
           respond 200 "Car updated successfully"
     end)
    (fun _ => respond 500 "Server error").

(** The two [priceAlert] events of a drop from the stored price of [car]. *)
Definition priceAlert_events (car : Car) (newPrice : number) : list Emit :=
  let alert := PriceAlert car (price car) newPrice
                 (toFixed1 (Math_abs (priceChange (price car) newPrice))) in
  [ {| target := Room (toLowerCase (city (location car) +:+ "_"
                                     +:+ state (location car)));
       event := "priceAlert"; payload := alert |};
    {| target := Room ("make_" +:+ toLowerCase (make car));
       event := "priceAlert"; payload := alert |} ].

(* ===================================================================== *)
(** ** [routes/vendors]: the leads page *)
(* ===================================================================== *)

(** [Math.ceil]: the smallest integral number not below [x]. *)
Definition Math_ceil (x : number) : number :=
  match x with
  | S754_finite s m e =>
      let z := if 0 <=? e then signed s m * 2 ^ e
               else - ((- signed s m) / 2 ^ (- e)) in
      binary_normalize prec emax z 0 s
  | _ => x
  end.

(** The filter [{ seller: vendorId, inquiries: { $gt: 0 } }]. *)
Definition has_leads (vendorId : string) (c : Car) : Prop :=
  seller c = vendorId ∧ 0 < inquiries c.

#[global] Instance has_leads_dec vendorId c : Decision (has_leads vendorId c).
Proof. unfold has_leads. apply _. Defined.

Record Pagination := {
  pg_page : Z;
  pg_limit : Z;
  pg_total : Z;
  pg_pages : number
}.

Inductive LeadsResponse :=
| LeadsOk (leads : list Lead) (pagination : Pagination)
| LeadsError (status : Z) (message : string).

(** The [leads] array of a response (none in an error response). *)
Definition leads_of (r : LeadsResponse) : list Lead :=
  match r with LeadsOk leads _ => leads | LeadsError _ _ => [] end.

(** Newest update first: the order asked for by [{ lastUpdated: -1 }]. *)
Definition newer_first (a b : Car) : Prop := lastUpdated b <= lastUpdated a.

#[global] Instance newer_first_dec a b : Decision (newer_first a b).
Proof. unfold newer_first. apply _. Defined.

Section Leads.

(** [.sort({ lastUpdated: -1 })]: the database returns the matching documents
    in some order with the most recently updated first; the order among
    documents with equal [lastUpdated] is the database's choice. *)
Variable sort_lastUpdated_desc : list Car -> list Car.

(** [GET /api/vendors/leads], behind the [requireVendor] middleware, for
    query values [page] and [limit] that are absent ([None]) or numerals of
    positive integers.  The route reads the collection and writes nothing.
    The documents are projected to the selected fields; the fields of
    [lead_car] outside of the selection are not part of the response. *)
Definition get_leads (now : Z) (u : User) (page limit : option positive)
    (w : World) : LeadsResponse :=
  if negb (bool_decide (user_role u = "vendor"))
  then LeadsError 403 "Vendor access required"
  else
    let page := default 1%positive page in
    let limit := default 20%positive limit in
    let matching := filter (has_leads (user_id u)) (cars w) in
    let carsWithInquiries :=
      take (Pos.to_nat limit)
        (drop ((Pos.to_nat page - 1) * Pos.to_nat limit)
           (sort_lastUpdated_desc matching)) in
    let total := Z.of_nat (length matching) in
    LeadsOk (leadsWithScores now carsWithInquiries)
      {| pg_page := Zpos page; pg_limit := Zpos limit; pg_total := total;
         pg_pages := Math_ceil (div (ofZ total) (ofZ (Zpos limit))) |}.

End Leads.

(** The leads of the pages [1], ..., [n] of one size, one after the other.
    Every page is a request of its own, and the database orders the result of
    each as it chooses among equal keys: [sorts i] is the order it returns on
    the request for page [i + 1]. *)
Definition leads_pages (sorts : nat -> list Car -> list Car) (now : Z) (u : User)
    (limit : positive) (n : nat) (w : World) : list Lead :=
  mjoin ((fun i => leads_of (get_leads (sorts i) now u
                               (Some (Pos.of_nat (S i))) (Some limit) w))
           <$> seq 0 n).

(** A database sort that, unlike [stable_sort] below, returns the documents
    of equal keys in the reverse of their stored order. *)
Definition unstable_sort (cs : list Car) : list Car :=
  sorting.merge_sort newer_first (reverse cs).


(* ===================================================================== *)
(** ** [services/vendorAnalyticsService]: alerts *)
(* ===================================================================== *)

Record Alert := {
  alert_type : string;
  alert_title : string;
  alert_message : string;
  alert_priority : string
}.

(** [Car.countDocuments(filter)]. *)
Definition countDocuments (P : Car -> Prop) `{!forall c, Decision (P c)}
    (cs : list Car) : Z :=
  Z.of_nat (length (filter P cs)).

(** [{ seller: vendorId, status: 'active', inquiries: { $gte: 5 },
      views: { $gte: 100 } }]. *)
Definition high_interest (vendorId : string) (c : Car) : Prop :=
  seller c = vendorId ∧ status c = "active" ∧ 5 <= inquiries c ∧ 100 <= views c.

(** [{ seller: vendorId, status: 'active',
      listedAt: { $lte: new Date(Date.now() - 30 * 24 * 60 * 60 * 1000) },
      views: { $lte: 20 } }]. *)
Definition old_listing (now : Z) (vendorId : string) (c : Car) : Prop :=
  seller c = vendorId ∧ status c = "active" ∧
  listedAt c <= now - 30 * 24 * 60 * 60 * 1000 ∧ views c <= 20.

#[global] Instance high_interest_dec v c : Decision (high_interest v c).
Proof. unfold high_interest. apply _. Defined.

#[global] Instance old_listing_dec now v c : Decision (old_listing now v c).
Proof. unfold old_listing. apply _. Defined.

(** [VendorAnalyticsService.getVendorAlerts]; the filter
    [{ seller: vendorId, status: 'active' }] is [vendor_active]. *)
Definition getVendorAlerts (now : Z) (vendorId : string) (cs : list Car) : list Alert :=
  let alerts := [] in
  let activeCount := countDocuments (vendor_active vendorId) cs in
  let alerts :=
    if activeCount <? 5
    then alerts ++ [ {| alert_type := "warning"; alert_title := "Low Inventory";
                        alert_message := "Only " +:+ digits activeCount
                                           +:+ " active listings remaining";
                        alert_priority := "medium" |} ]
    else alerts in
  let highInterest := countDocuments (high_interest vendorId) cs in
  let alerts :=
    if 0 <? highInterest
    then alerts ++ [ {| alert_type := "success"; alert_title := "High Interest Cars";
                        alert_message := digits highInterest
                                           +:+ " cars have high buyer interest";
                        alert_priority := "low" |} ]
    else alerts in
  let oldListings := countDocuments (old_listing now vendorId) cs in
  let alerts :=
    if 0 <? oldListings
    then alerts ++ [ {| alert_type := "info"; alert_title := "Price Review Needed";
                        alert_message := digits oldListings
                                           +:+ " cars may need price adjustment";
                        alert_priority := "medium" |} ]
    else alerts in
  alerts.

(** A database sort that keeps the stored order among equal keys. *)
Definition stable_sort (cs : list Car) : list Car := sorting.merge_sort newer_first cs.

Definition corolla : Car := sample_car "c3" "Toyota" "Corolla" 2020 18000 "v1" 2.
Definition rav4 : Car := sample_car "c4" "Toyota" "RAV4" 2023 32000 "v1" 0.
(* ===================================================================== *)
(** * Properties *)
(* ===================================================================== *)

(** ** Facts about the collection *)

Lemma find_has_id id cs c :
  List.find (has_id id) cs = Some c -> _id c = id.
Proof.
  intros H. apply List.find_some in H as [_ H].
  unfold has_id in H. by apply bool_decide_eq_true in H.
Qed.

Lemma find_update_first id f cs :
  (forall c, _id (f c) = _id c) ->
  List.find (has_id id) (update_first id f cs) = f <$> List.find (has_id id) cs.
Proof.
  intros Hid. induction cs as [|c cs IH]; [done|].
  cbn [update_first List.find].
  destruct (has_id id c) eqn:E.
  - cbn [List.find]. unfold has_id in *. rewrite Hid, E. done.
  - cbn [List.find]. rewrite E. exact IH.
Qed.

(** ** Not-found is a silent skip *)



(** ** Integers as numbers *)

(** Rounding a non-zero integer never produces a zero or a NaN: the mantissa
    keeps at least one binary digit through both shifts of the rounding. *)









(** ** Emitting *)

Lemma emit_ready t ev p w :
  io_ready w = true ->
  emit t ev p w = Ok tt (push [ {| target := t; event := ev; payload := p |} ] w).
Proof. intros H. unfold emit, push. by rewrite H. Qed.

Lemma push_push es1 es2 w : push es2 (push es1 w) = push (es1 ++ es2) w.
Proof. unfold push. cbn. by rewrite <- app_assoc. Qed.

Lemma push_nil w : push [] w = w.
Proof. destruct w. unfold push. cbn. by rewrite app_nil_r. Qed.

(** ** Price alerts *)

(** With the listing present and the socket server initialised, a price change
    publishes the alert to the location room and to the make room exactly
    when the computed percentage is strictly below -5. *)
Lemma notifyPriceChange_found w carId car oldPrice newPrice :
  io_ready w = true ->
  List.find (has_id carId) (cars w) = Some car ->
  notifyPriceChange carId oldPrice newPrice w =
    Ok tt
      (if lt (priceChange oldPrice newPrice) (ofZ (-5)) then
         let alert := PriceAlert car oldPrice newPrice
                        (toFixed1 (Math_abs (priceChange oldPrice newPrice))) in
         push [ {| target := Room (toLowerCase (city (location car) +:+ "_"
                                                 +:+ state (location car)));
                   event := "priceAlert"; payload := alert |};
                {| target := Room ("make_" +:+ toLowerCase (make car));
                   event := "priceAlert"; payload := alert |} ] w
       else w).
Proof.
  intros Hio Hfind.
  unfold notifyPriceChange, bind, findById, getIO. rewrite Hfind, Hio.
  destruct (lt _ _); [|done].
  unfold emitToLocation, emitToMakeInterests.
  rewrite emit_ready by done. rewrite emit_ready by done.
  by rewrite push_push.
Qed.

(** A change from 100 to 94 publishes the alert to both rooms, with the old
    price, the new price and the percentage "6.0"; a change from 100 to 97
    publishes nothing. *)
Lemma price_alert_examples :
  outbox (world_of (notifyPriceChange "c1" (ofZ 100) (ofZ 94) (sample_world [camry])))
    = [ {| target := Room "los angeles_ca"; event := "priceAlert";
           payload := PriceAlert camry (ofZ 100) (ofZ 94) "6.0" |};
        {| target := Room "make_toyota"; event := "priceAlert";
           payload := PriceAlert camry (ofZ 100) (ofZ 94) "6.0" |} ] /\
  notifyPriceChange "c1" (ofZ 100) (ofZ 97) (sample_world [camry])
    = Ok tt (sample_world [camry]).
Proof. split; vm_compute; reflexivity. Qed.

(** C1. At a drop of exactly five percent (100 to 95) the computed percentage
    is -5, which satisfies [percentDiff <= -5], and yet the operation returns
    without publishing anything: the guard is the strict [priceChange < -5]. *)
Theorem price_drop_of_exactly_five_percent_is_silent :
  priceChange (ofZ 100) (ofZ 95) = ofZ (-5) /\
  le (priceChange (ofZ 100) (ofZ 95)) (ofZ (-5)) = true /\
  notifyPriceChange "c1" (ofZ 100) (ofZ 95) (sample_world [camry])
    = Ok tt (sample_world [camry]).
Proof. repeat split; vm_compute; reflexivity. Qed.

(** ** Inquiries and the milestone *)

Lemma inc_inquiries_id now c : _id (inc_inquiries now c) = _id c.
Proof. done. Qed.

(** The outcome of the inquiry route on an existing listing, with the socket
    server initialised. *)
Lemma post_inquiry_found now u id w car :
  io_ready w = true ->
  List.find (has_id id) (cars w) = Some car ->
  post_inquiry now u id w =
    Ok {| res_status := 200; res_message := "Inquiry recorded" |}
       (push
          ([ {| target := Room ("user_" +:+ seller car); event := "newInquiry";
                payload := Inquiry id (make car) (model car) (year car) (price car)
                             (user_name u) |};
             {| target := Room ("user_" +:+ seller car); event := "newInquiry";
                payload := VendorInquiry id (inc_inquiries now car) (user_name u)
                             now high |} ]
           ++ (if inquiries car + 1 =? 5
               then [ {| target := Room ("user_" +:+ seller car);
                         event := "performanceMilestone";
                         payload := Milestone id (inc_inquiries now car)
                                      "multiple_inquiries" now high |} ]
               else []))
          (set_cars (update_first id (inc_inquiries now) (cars w)) w)).
Proof.
  intros Hio Hfind.
  pose proof (find_has_id _ _ _ Hfind) as Hid.
  set (w1 := set_cars (update_first id (inc_inquiries now) (cars w)) w).
  assert (Hfind1 : List.find (has_id id) (cars w1) = Some (inc_inquiries now car)).
  { cbn. rewrite find_update_first by apply inc_inquiries_id. by rewrite Hfind. }
  assert (Hio1 : forall es, io_ready (push es w1) = true) by (intros; exact Hio).
  unfold post_inquiry, try_catch, bind, findById_param.
  rewrite Hfind. unfold findByIdAndUpdate_inc_inquiries. fold w1.
  unfold notifyInquiry, notifyNewInquiry, bind, findById. rewrite Hid.
  cbv beta. rewrite Hfind1. unfold emitToUser.
  rewrite (emit_ready _ _ _ w1 (Hio1 [])).
  cbn [cars push]. rewrite Hfind1.
  rewrite (emit_ready _ _ _ _ (Hio1 _)), push_push.
  cbn [cars push]. rewrite Hfind1.
  cbn [inquiries inc_inquiries seller make model year price app].
  destruct (inquiries car + 1 =? 5).
  - unfold notifyPerformanceMilestone, bind, findById.
    cbn [cars push]. rewrite Hfind1. unfold emitToUser.
    rewrite (emit_ready _ _ _ _ (Hio1 _)), push_push. reflexivity.
  - unfold respond, ret. reflexivity.
Qed.

(** C2. Recording an inquiry on a listing sends a performance-milestone event,
    to the seller's personal room, exactly when the count after the increment
    is 5: going from 4 to 5 sends exactly one, and from 5 on none is sent. *)
Theorem milestone_fires_exactly_at_five now u id w car :
  io_ready w = true ->
  List.find (has_id id) (cars w) = Some car ->
  exists new,
    outbox (world_of (post_inquiry now u id w)) = outbox w ++ new /\
    milestones new =
      (if inquiries car + 1 =? 5
       then [ {| target := Room ("user_" +:+ seller car);
                 event := "performanceMilestone";
                 payload := Milestone id (inc_inquiries now car)
                              "multiple_inquiries" now high |} ]
       else []) /\
    (inquiries car = 4 -> length (milestones new) = 1%nat) /\
    (5 <= inquiries car -> milestones new = []).
Proof.
  intros Hio Hfind. rewrite (post_inquiry_found _ _ _ _ _ Hio Hfind).
  eexists. split; [reflexivity|].
  assert (Hm : forall tail,
    milestones
      ([ {| target := Room ("user_" +:+ seller car); event := "newInquiry";
            payload := Inquiry id (make car) (model car) (year car) (price car)
                         (user_name u) |};
         {| target := Room ("user_" +:+ seller car); event := "newInquiry";
            payload := VendorInquiry id (inc_inquiries now car) (user_name u)
                         now high |} ] ++ tail) = milestones tail).
  { intros tail. unfold milestones. cbn [app].
    rewrite !filter_cons_False by (cbn; discriminate). done. }
  rewrite Hm.
  destruct (inquiries car + 1 =? 5) eqn:E.
  - split; [reflexivity|]. split; [reflexivity|].
    intros Hge. apply Z.eqb_eq in E. lia.
  - split; [reflexivity|]. split; [|reflexivity].
    intros H4. rewrite H4 in E. discriminate.
Qed.

(** Over any run of successive inquiries on a listing that starts with [n]
    inquiries, the milestone is sent once if the count crosses 5 during the
    run, and not at all otherwise: it never fires again after the crossing. *)
Lemma milestone_once_over_many_inquiries nows u id : forall w car,
  io_ready w = true ->
  List.find (has_id id) (cars w) = Some car ->
  exists new,
    outbox (inquire_all nows u id w) = outbox w ++ new /\
    length (milestones new) =
      if (inquiries car <? 5) && (5 <=? inquiries car + Z.of_nat (length nows))
      then 1%nat else 0%nat.
Proof.
  induction nows as [|now nows IH]; intros w car Hio Hfind.
  - exists []. split; [by rewrite app_nil_r|].
    cbn [length milestones filter list_filter Z.of_nat].
    destruct (inquiries car <? 5) eqn:E1; [|done].
    apply Z.ltb_lt in E1. rewrite (proj2 (Z.leb_gt _ _)) by lia. done.
  - change (inquire_all (now :: nows) u id w)
      with (inquire_all nows u id (world_of (post_inquiry now u id w))).
    rewrite (post_inquiry_found _ _ _ _ _ Hio Hfind). cbn [world_of].
    match goal with |- context [push ?es ?w1] =>
      destruct (IH (push es w1) (inc_inquiries now car)) as (new & Hout & Hlen);
      [exact Hio
      |cbn [cars push set_cars];
       rewrite find_update_first by apply inc_inquiries_id; by rewrite Hfind
      |exists (es ++ new)]
    end.
    split.
    + rewrite Hout. cbn [outbox push set_cars]. by rewrite <- app_assoc.
    + unfold milestones in *. rewrite !filter_app, !length_app, Hlen.
      cbn [app]. rewrite !filter_cons_False by (cbn; discriminate).
      cbn [inquiries inc_inquiries length]. rewrite Nat2Z.inj_succ.
      set (n := inquiries car). set (K := Z.of_nat (length nows)).
      assert (Hone : forall e : Emit, event e = "performanceMilestone" ->
                length (filter (λ e, event e = "performanceMilestone") [e]) = 1%nat).
      { intros e He. rewrite filter_cons_True by done. done. }
      destruct (Z.eqb_spec (n + 1) 5); [rewrite Hone by done|];
        destruct (Z.ltb_spec n 5), (Z.ltb_spec (n + 1) 5),
                 (Z.leb_spec 5 (n + 1 + K)), (Z.leb_spec 5 (n + Z.succ K));
        cbn; lia.
Qed.

Lemma milestone_fires_exactly_at_five_witness :
  exists new,
    outbox (world_of (post_inquiry 5000 buyer1 "c1" (sample_world [camry])))
      = outbox (sample_world [camry]) ++ new /\
    length (milestones new) = 1%nat.
Proof.
  destruct (milestone_fires_exactly_at_five 5000 buyer1 "c1"
              (sample_world [camry]) camry eq_refl eq_refl)
    as (new & Hout & _ & H4 & _).
  exists new. split; [exact Hout|]. apply H4. reflexivity.
Defined.

(** ** Status changes and the sale time *)







(** ** Leads: urgency and lead score *)

(** C4. The urgency of 31 days is high, of 20 and of 30 days medium, of 5 days
    low -- and of exactly 14 days low, not medium: the lower bound of the
    medium band is the strict [daysListed > 14].  The same is seen on a
    listing that was listed exactly fourteen days before the request. *)
Theorem urgency_at_fourteen_days_is_low :
  urgencyScore (ofZ 31) = "high" /\
  urgencyScore (ofZ 20) = "medium" /\
  urgencyScore (ofZ 5) = "low" /\
  urgencyScore (ofZ 30) = "medium" /\
  urgencyScore (ofZ 14) = "low" /\
  daysListed (leadOf (1000 + 14 * 86400000) camry) = ofZ 14 /\
  urgency (leadOf (1000 + 14 * 86400000) camry) = "low".
Proof. repeat split; vm_compute; reflexivity. Qed.

(** Over ten years of whole days the bands are: high above 30 days, medium
    from 15 to 30 days, low up to 14 days. *)
Lemma urgency_bands d :
  0 <= d <= 3650 ->
  urgencyScore (ofZ d) =
    if 30 <? d then "high" else if 14 <? d then "medium" else "low".
Proof.
  intros Hd.
  assert (H : Forall (fun d => urgencyScore (ofZ d) =
                        if 30 <? d then "high" else if 14 <? d then "medium" else "low")
                (seqZ 0 3651)).
  { apply (bool_decide_unpack _). vm_compute. exact I. }
  rewrite Forall_forall in H. apply H. apply elem_of_seqZ. lia.
Qed.

(** The lead of the dashboard documentation: 5 inquiries on 89 views, listed
    for 18 days, scores 5.6 with medium urgency. *)
Lemma lead_score_example :
  let car := {| _id := "c3"; make := "Toyota"; model := "Camry"; year := 2023;
                price := ofZ 28000; originalPrice := None; priceHistory := [];
                location := los_angeles; seller := "v1"; sellerType := "dealer";
                status := "active"; views := 89; inquiries := 5; favorites := 12;
                listedAt := 0; lastUpdated := 0; soldAt := None;
                featured := false; urgent := false;
                createdAt := 0; updatedAt := 0 |} in
  let lead := leadOf (18 * 86400000 + 7200000) car in
  leadScore lead = div (ofZ 56) (ofZ 10) /\
  urgency lead = "medium" /\
  daysListed lead = ofZ 18.
Proof. repeat split; vm_compute; reflexivity. Qed.








(** ** Dashboard: conversion rate *)

(** No listing passes a [{ seller: vendorId }] stage of an aggregation. *)
Lemma aggregate_seller_matches_nothing (P : Car -> Prop) `{!forall c, Decision (P c)}
    vendorId (store : list Car) :
  (forall c, P c -> aggregate_seller vendorId c) ->
  filter P store = [].
Proof.
  intros HP. induction store as [|c cs IH]; [done|].
  rewrite filter_cons. destruct (decide (P c)) as [Hc|_]; [|exact IH].
  apply HP in Hc. discriminate Hc.
Qed.

(** C8. The overview of the dashboard is empty for every vendor and every
    collection, since its [$match] compares the ObjectId of the seller with
    the string [req.user.id]; the conversion rate of the dashboard is
    therefore "0" always.  For Vera, who has one sold listing and nine
    inquiries, the rate of the specification is 11.1, and so is the answer of
    the same computation on the groups of her own listings. *)
Theorem conversion_rate_is_zero_for_every_vendor :
  (forall store vendorId,
     dashboard_overview store vendorId = [] /\
     conversionRate (dashboard_insights (dashboard_overview store vendorId)) = "0") /\
  conversion_tenths_as_specified (filter (fun c => seller c = vera_id) vera_market)
    = Some 111 /\
  conversionRate (dashboard_insights (dashboard_overview vera_market vera_id)) = "0" /\
  conversionRate
    (dashboard_insights (group_by_status (filter (fun c => seller c = vera_id) vera_market)))
    = "11.1".
Proof.
  assert (Hempty : forall store vendorId, dashboard_overview store vendorId = []).
  { intros store vendorId. unfold dashboard_overview.
    by rewrite (aggregate_seller_matches_nothing _ vendorId). }
  split; [|split; [|split]].
  - intros store vendorId. by rewrite Hempty.
  - vm_compute. reflexivity.
  - by rewrite Hempty.
  - vm_compute. reflexivity.
Qed.

(** ** Bulk update *)

Lemma updateData_lookup (upd : gmap string json) k :
  updateData_of upd !! k = if decide (k ∈ validUpdates) then upd !! k else None.
Proof.
  unfold updateData_of. rewrite map_lookup_filter.
  destruct (upd !! k) as [v|]; cbn; [|by case_decide].
  case_decide.
  - by rewrite option_guard_True.
  - by rewrite option_guard_False.
Qed.

Lemma updateData_agree (upd upd' : gmap string json) :
  (forall k, k ∈ validUpdates -> upd' !! k = upd !! k) ->
  updateData_of upd' = updateData_of upd.
Proof.
  intros H. apply map_eq. intros k. rewrite !updateData_lookup.
  case_decide; auto.
Qed.

Lemma updateData_empty (upd : gmap string json) :
  (forall k, k ∈ validUpdates -> upd !! k = None) ->
  updateData_of upd = ∅.
Proof.
  intros H. apply map_eq. intros k. rewrite updateData_lookup, lookup_empty.
  case_decide; auto.
Qed.

Lemma bulk_apply_unlisted ids v d now c :
  unlisted_part (bulk_apply ids v d now c) = unlisted_part c.
Proof. unfold bulk_apply. by case_decide. Qed.


(** [modifiedCount] is the number of positions whose document changed. *)
Lemma modified_is_changed ids v d now (cs : list Car) :
  Z.of_nat (length (filter (λ c, bulk_match ids v c ∧ apply_set d now c ≠ c) cs))
  = changed_count cs (bulk_apply ids v d now <$> cs).
Proof.
  unfold changed_count. f_equal.
  induction cs as [|c cs IH]; [done|].
  rewrite fmap_cons. cbn [zip zip_with].
  rewrite !filter_cons. cbn [fst snd].
  destruct (decide (c ≠ bulk_apply ids v d now c)) as [Hc|Hc].
  - rewrite decide_True; [cbn [length]; by rewrite IH|].
    unfold bulk_apply in Hc. destruct (decide (bulk_match ids v c)); [|done].
    split; [done|]. congruence.
  - rewrite decide_False; [exact IH|].
    intros [Hm He]. apply Hc. unfold bulk_apply. rewrite decide_True by done.
    congruence.
Qed.


Section BulkUpdateProperties.

Variable cast_string : json -> option string.
Variable cast_boolean : json -> option bool.
Variable cast_number : json -> option number.

Abbreviation bulk := (post_bulk_update cast_string cast_boolean cast_number).
Abbreviation casted := (cast_update cast_string cast_boolean cast_number).

(** The possible outcomes of the route: either nothing happened to the world,
    or the update ran on the listings matched by the ownership filter; in the
    latter case the event follows when the socket server is initialised. *)
Lemma post_bulk_update_cases now u carIds updates w :
  world_of (bulk now u carIds updates w) = w \/
  exists ids upd d,
    carIds = Some ids /\ updates = Some upd /\
    casted (updateData_of upd) = Some d /\
    let cs' := bulk_apply ids (user_id u) d now <$> cars w in
    let n := changed_count (cars w) cs' in
    (io_ready w = false /\
     bulk now u carIds updates w =
       Ok {| res_status := 500; res_message := "Bulk update error" |} (set_cars cs' w)) \/
    (io_ready w = true /\
     bulk now u carIds updates w =
       Ok {| res_status := 200;
             res_message := "Updated " +:+ digits n +:+ " cars" |}
          (push [inventoryUpdate_event u n (updateData_of upd)] (set_cars cs' w))).
Proof.
  unfold post_bulk_update.
  destruct (negb _); [by left|].
  destruct carIds as [[|id0 ids]|]; [by left| |by left].
  destruct updates as [upd|]; [|by left].
  unfold try_catch, bind, respond, ret, throw.
  destruct (bool_decide _); [by left|].
  destruct (casted (updateData_of upd)) as [d|] eqn:Hcast; [|by left].
  right. exists (id0 :: ids), upd, d. split; [done|]. split; [done|]. split; [done|].
  cbv zeta. unfold updateMany. rewrite modified_is_changed.
  unfold getIO. cbn [io_ready set_cars].
  destruct (io_ready w) eqn:Hio.
  - right. split; [done|].
    rewrite emit_ready by (cbn; exact Hio). reflexivity.
  - left. split; [done|]. reflexivity.
Qed.


(** C10. Whatever the request, a bulk update changes no field of any listing
    other than [status], [featured], [urgent] and [price] (and the automatic
    [updatedAt] timestamp); the values written are the casts of the entries
    supplied under those four keys; every other key is discarded, so two
    requests that agree on the four keys have the same outcome; and a vendor's
    request with ids but without any of the four keys is answered 400 with
    the world left as it was. *)
Theorem bulk_update_writes_whitelisted_fields_only
    (now : Z) (u : User) (carIds : option (list string))
    (updates : option (gmap string json)) (w : World) :
  let o := bulk now u carIds updates w in
  (forall i c c',
     cars w !! i = Some c -> cars (world_of o) !! i = Some c' ->
     unlisted_part c' = unlisted_part c /\
     (c' = c \/
      exists upd d, updates = Some upd /\
        cast_path cast_string (upd !! "status") = Some (set_status d) /\
        cast_path cast_boolean (upd !! "featured") = Some (set_featured d) /\
        cast_path cast_boolean (upd !! "urgent") = Some (set_urgent d) /\
        cast_path cast_number (upd !! "price") = Some (set_price d) /\
        c' = apply_set d now c)) /\
  (forall upd upd',
     updates = Some upd ->
     (forall k, k ∈ validUpdates -> upd' !! k = upd !! k) ->
     bulk now u carIds (Some upd') w = o) /\
  (forall id0 ids upd,
     user_role u = "vendor" -> carIds = Some (id0 :: ids) -> updates = Some upd ->
     (forall k, k ∈ validUpdates -> upd !! k = None) ->
     o = Ok {| res_status := 400; res_message := "No valid updates provided" |} w).
Proof.
  cbv zeta. split; [|split].
  - intros i c c' Hi Hi'.
    destruct (post_bulk_update_cases now u carIds updates w)
      as [Hsame | (ids & upd & d & -> & -> & Hcast & Hcases)].
    + rewrite Hsame in Hi'. assert (c' = c) as -> by congruence. auto.
    + cbv zeta in Hcases.
      assert (Hcars : cars (world_of (bulk now u (Some ids) (Some upd) w))
                      = bulk_apply ids (user_id u) d now <$> cars w).
      { destruct Hcases as [[_ ->]|[_ ->]]; reflexivity. }
      rewrite Hcars, list_lookup_fmap, Hi in Hi'. cbn in Hi'.
      injection Hi' as <-. split; [apply bulk_apply_unlisted|].
      unfold bulk_apply. case_decide; [|by left].
      right. exists upd, d. split; [done|].
      revert Hcast. unfold cast_update. rewrite !updateData_lookup.
      rewrite !decide_True by (unfold validUpdates; repeat constructor).
      destruct (cast_path cast_string _) as [s|]; [|done].
      destruct (cast_path cast_boolean (upd !! "featured")) as [f|]; [|done].
      destruct (cast_path cast_boolean (upd !! "urgent")) as [g|]; [|done].
      destruct (cast_path cast_number _) as [p|]; [|done].
      intros [= <-]. cbn. done.
  - intros upd upd' -> Hagree.
    unfold post_bulk_update. by rewrite (updateData_agree upd upd' Hagree).
  - intros id0 ids upd Hrole -> -> Hnone.
    unfold post_bulk_update. rewrite Hrole.
    rewrite bool_decide_eq_true_2 by done. cbn [negb].
    unfold try_catch, respond, ret.
    rewrite (updateData_empty upd Hnone).
    rewrite bool_decide_eq_true_2 by done. reflexivity.
Qed.

End BulkUpdateProperties.


Lemma bulk_update_writes_whitelisted_fields_only_witness :
  post_bulk_update exact_string exact_boolean exact_number
    3000 vendor1 (Some ["c1"; "c2"]) (Some (<["seller" := JStr "v1"]> ∅))
    (sample_world [camry; civic])
  = Ok {| res_status := 400; res_message := "No valid updates provided" |}
       (sample_world [camry; civic]).
Proof.
  pose proof (bulk_update_writes_whitelisted_fields_only
                exact_string exact_boolean exact_number
                3000 vendor1 (Some ["c1"; "c2"]) (Some (<["seller" := JStr "v1"]> ∅))
                (sample_world [camry; civic])) as H.
  cbv zeta in H. destruct H as (_ & _ & Hreject).
  apply (Hreject "c1" ["c2"] (<["seller" := JStr "v1"]> ∅)); try reflexivity.
  intros k Hk. rewrite lookup_insert_ne; [apply lookup_empty|].
  intros <-. revert Hk. apply (bool_decide_eq_false_1 _). reflexivity.
Defined.

(** ** Pricing recommendations *)

Lemma pricing_row_inv store c row :
  pricing_row store c = Some row ->
  pr_car row = c /\
  marketData store c = Some (marketPrice row) /\
  priceDiff row = sub (price c) (marketPrice row) /\
  (gt (priceDiff row) (ofZ 5000) = true \/ lt (priceDiff row) (ofZ (-3000)) = true).
Proof.
  unfold pricing_row. destruct (marketData store c) as [mp|]; [|done].
  destruct (gt _ _ || lt _ _) eqn:E; [|done].
  intros [= <-]. cbn. apply orb_true_iff in E. done.
Qed.

(** What leaves the later stages of the pricing pipeline: at most five rows,
    the first five qualifying documents in order; each comes from a matched
    document, whose market price is the mean price of all the active listings
    of the same make and model within two model years -- those of its own
    seller included -- and whose price exceeds that mean by more than 5000 or
    is below it by more than 3000; the priority of its recommendation is high
    exactly when the magnitude of the difference exceeds 10000. *)
Lemma pricing_stages_sound (store matched : list Car) :
  (length (pricing_stages store matched) <= 5)%nat /\
  (forall row, row ∈ pricing_stages store matched ->
     let c := pr_car row in
     let diff := priceDiff row in
     c ∈ matched /\
     marketData store c = Some (marketPrice row) /\
     diff = sub (price c) (marketPrice row) /\
     (gt diff (ofZ 5000) = true \/ lt diff (ofZ (-3000)) = true) /\
     (rec_priority (pricing_recommendation row) = high <->
        gt (Math_abs diff) (ofZ 10000) = true)) /\
  (forall (i : nat) row,
     omap (pricing_row store) matched !! i = Some row -> (i < 5)%nat ->
     pricing_stages store matched !! i = Some row).
Proof.
  split; [|split].
  - unfold pricing_stages. rewrite length_take. lia.
  - intros row Hrow. cbv zeta. unfold pricing_stages in Hrow.
    apply elem_of_take in Hrow as (i & Hi & _).
    apply list_elem_of_lookup_2 in Hi.
    apply list_elem_of_omap in Hi as (c & Hc & Hprow).
    apply pricing_row_inv in Hprow as (Hcar & Hmd & Hdiff & Hthr).
    rewrite Hcar. split; [done|]. split; [done|]. split; [done|]. split; [done|].
    cbn [rec_priority pricing_recommendation].
    destruct (gt (Math_abs (priceDiff row)) (ofZ 10000)); split; done.
  - intros i row Hi Hlt. unfold pricing_stages.
    by rewrite lookup_take_lt.
Qed.

(** C7. No pricing recommendation is ever produced: the first [$match] of
    the pipeline compares the ObjectId of the seller with the string
    [req.user.id] and lets no document pass.  So the rule of the
    specification fails for Vera, whose Accord at 35000 is 7000 above the
    mean 28000 of the two comparable listings of another seller.  Nor do the
    later stages exclude the vendor's own listings: every active listing is
    among its own comparables, and on Vera's active listings these stages
    find a mean of 30333.33 for the Accord, less than 5000 below its price,
    and produce nothing either. *)
Theorem pricing_recommendations_are_never_emitted :
  (forall store vendorId,
     pricingInsights store vendorId = [] /\
     recommendations_pricing store vendorId = []) /\
  market_mean_as_specified vera_market vera_id accord = Some (ofZ 28000) /\
  ~ pricing_as_specified vera_market vera_id /\
  (forall (store : list Car) c, c ∈ store -> status c = "active" ->
     c ∈ filter (comparable c) store) /\
  filter (vendor_active vera_id) vera_market = [accord] /\
  (marketData vera_market accord = Some (div (ofZ 91000) (ofZ 3)) /\
   pricing_stages vera_market (filter (vendor_active vera_id) vera_market) = []).
Proof.
  assert (Hempty : forall store vendorId, pricingInsights store vendorId = []).
  { intros store vendorId. unfold pricingInsights.
    rewrite (aggregate_seller_matches_nothing _ vendorId); [done|].
    by intros c [Hc _]. }
  split; [|split; [|split; [|split; [|split]]]].
  - intros store vendorId. unfold recommendations_pricing. by rewrite Hempty.
  - vm_compute. reflexivity.
  - intros H.
    destruct (H accord (ofZ 28000)) as (r & Hr & _).
    + apply (bool_decide_unpack _). vm_compute. exact I.
    + split; reflexivity.
    + vm_compute. reflexivity.
    + vm_compute. reflexivity.
    + unfold recommendations_pricing in Hr. rewrite Hempty in Hr.
      by apply elem_of_nil in Hr.
  - intros store c Hin Hactive. apply list_elem_of_filter. split; [|done].
    unfold comparable. repeat split; try done; lia.
  - vm_compute. reflexivity.
  - split; vm_compute; reflexivity.
Qed.

(* ===================================================================== *)
(** * Further properties of the code *)
(* ===================================================================== *)

(** ** Rooms *)

Lemma toLowerCase_app a b : toLowerCase (a +:+ b) = toLowerCase a +:+ toLowerCase b.
Proof.
  induction a as [|c a IH]; [done|].
  change (String (lower_ascii c) (toLowerCase (a +:+ b))
          = String (lower_ascii c) (toLowerCase a +:+ toLowerCase b)).
  by rewrite IH.
Qed.

Lemma elem_of_recipients_room r sid (ss : gmap string Socket) :
  sid ∈ recipients (Room r) ss <-> exists s, ss !! sid = Some s /\ r ∈ rooms s.
Proof.
  unfold recipients. rewrite elem_of_dom. unfold is_Some.
  setoid_rewrite map_lookup_filter_Some. naive_solver.
Qed.

Lemma rooms_join room s r : r ∈ rooms (join room s) <-> r = room \/ r ∈ rooms s.
Proof. unfold join. cbn. set_solver. Qed.

Lemma rooms_foldl_join (f : string -> string) l s r :
  r ∈ rooms (foldl (λ s x, join (f x) s) s l) <->
  r ∈ rooms s \/ exists x, x ∈ l /\ r = f x.
Proof.
  revert s. induction l as [|y l IH]; intros s; cbn [foldl].
  - split; [auto|]. intros [H|(x & Hx & _)]; [done|]. by apply elem_of_nil in Hx.
  - rewrite IH, rooms_join. split.
    + intros [[->|H]|(x & Hx & ->)]; [right; exists y|by left|right; exists x];
        (split; [|done]); [left|by right].
    + intros [H|(x & Hx & ->)]; [by left; right|].
      apply elem_of_cons in Hx as [->|Hx]; [by left; left|right; eauto].
Qed.

Lemma data_user_foldl_join (f : string -> string) l s :
  data_user (foldl (λ s x, join (f x) s) s l) = data_user s.
Proof. revert s. induction l as [|y l IH]; intros s; [done|]. cbn [foldl]. by rewrite IH. Qed.

(** A socket that joined the location room of a city and state is reached by
    every location event for a city and state that differ from them at most
    in the case of the ASCII letters [A] to [Z]. *)
Theorem joined_location_receives_local_events
    (verify : string -> option Decoded) (ss : gmap string Socket) (sid : string) (s : Socket)
    (cty st cty' st' ev : string) (p : Payload) (w : World) :
  ss !! sid = Some s ->
  io_ready w = true ->
  toLowerCase cty' = toLowerCase cty ->
  toLowerCase st' = toLowerCase st ->
  exists e,
    emitToLocation cty' st' ev p w = Ok tt (push [e] w) /\
    event e = ev /\ payload e = p /\
    sid ∈ recipients (target e) (socket_step verify ss (sid, JoinLocation cty st)).
Proof.
  intros Hs Hio Hc Hst. unfold emitToLocation.
  eexists. split; [by apply emit_ready|]. split; [done|]. split; [done|].
  cbn [target socket_step fst snd]. apply elem_of_recipients_room.
  exists (joinLocation cty st s). split.
  - by rewrite lookup_alter_eq, Hs.
  - unfold joinLocation. apply rooms_join. left.
    rewrite !toLowerCase_app. by rewrite Hc, Hst.
Qed.

Lemma joined_location_receives_local_events_witness :
  exists e,
    emitToLocation "LOS ANGELES" "ca" "priceAlert" (NewListing camry) (sample_world [])
      = Ok tt (push [e] (sample_world [])) /\
    "s1" ∈ recipients (target e)
             (socket_step sample_verify (connect sample_verify "s1" None ∅)
                ("s1", JoinLocation "Los Angeles" "CA")).
Proof.
  destruct (joined_location_receives_local_events sample_verify
              (connect sample_verify "s1" None ∅) "s1"
              {| data_user := None; rooms := {["s1"]} |}
              "Los Angeles" "CA" "LOS ANGELES" "ca" "priceAlert"
              (NewListing camry) (sample_world []))
    as (e & He & _ & _ & Hin); try reflexivity.
  exists e. split; [exact He|exact Hin].
Defined.

(** A socket that registered an interest in a make is reached by every event
    for a make that differs from it at most in the case of the ASCII letters
    [A] to [Z]. *)
Theorem interested_socket_receives_make_events
    (verify : string -> option Decoded) (ss : gmap string Socket) (sid : string) (s : Socket)
    (makes bodyTypes : list string) (mk mk' ev : string) (p : Payload) (w : World) :
  ss !! sid = Some s ->
  io_ready w = true ->
  mk ∈ makes ->
  toLowerCase mk' = toLowerCase mk ->
  exists e,
    emitToMakeInterests mk' ev p w = Ok tt (push [e] w) /\
    event e = ev /\ payload e = p /\
    sid ∈ recipients (target e)
            (socket_step verify ss (sid, JoinInterests makes bodyTypes)).
Proof.
  intros Hs Hio Hmk Hlow. unfold emitToMakeInterests.
  eexists. split; [by apply emit_ready|]. split; [done|]. split; [done|].
  cbn [target socket_step fst snd]. apply elem_of_recipients_room.
  exists (joinInterests makes bodyTypes s). split.
  - by rewrite lookup_alter_eq, Hs.
  - unfold joinInterests.
    apply (rooms_foldl_join (λ bt, "bodyType_" +:+ toLowerCase bt)). left.
    apply (rooms_foldl_join (λ m, "make_" +:+ toLowerCase m)). right.
    exists mk. split; [done|]. by rewrite Hlow.
Qed.

Lemma interested_socket_receives_make_events_witness :
  exists e,
    emitToMakeInterests "TOYOTA" "newMakeListing" (NewListing camry) (sample_world [])
      = Ok tt (push [e] (sample_world [])) /\
    "s1" ∈ recipients (target e)
             (socket_step sample_verify (connect sample_verify "s1" None ∅)
                ("s1", JoinInterests ["honda"; "Toyota"] ["suv"])).
Proof.
  destruct (interested_socket_receives_make_events sample_verify
              (connect sample_verify "s1" None ∅) "s1"
              {| data_user := None; rooms := {["s1"]} |}
              ["honda"; "Toyota"] ["suv"] "Toyota" "TOYOTA" "newMakeListing"
              (NewListing camry) (sample_world []))
    as (e & He & _ & _ & Hin); try reflexivity.
  - apply (bool_decide_unpack _). vm_compute. exact I.
  - exists e. split; [exact He|exact Hin].
Defined.

Lemma location_room_has_underscore cty st :
  has_underscore (toLowerCase (cty +:+ "_" +:+ st)) = true.
Proof.
  induction cty as [|c cty IH]; [reflexivity|].
  change (bool_decide (lower_ascii c = "_"%char)
          || has_underscore (toLowerCase (cty +:+ "_" +:+ st)) = true).
  rewrite IH. apply orb_true_r.
Qed.

Lemma admins_not_by_joinLocation cty st s :
  "admins" ∈ rooms (joinLocation cty st s) -> "admins" ∈ rooms s.
Proof.
  unfold joinLocation. rewrite rooms_join. intros [H|H]; [|done].
  pose proof (location_room_has_underscore cty st) as Hu.
  rewrite <- H in Hu. discriminate.
Qed.

Lemma admins_not_by_joinInterests makes bodyTypes s :
  "admins" ∈ rooms (joinInterests makes bodyTypes s) -> "admins" ∈ rooms s.
Proof.
  unfold joinInterests.
  rewrite (rooms_foldl_join (λ bt, "bodyType_" +:+ toLowerCase bt)).
  rewrite (rooms_foldl_join (λ m, "make_" +:+ toLowerCase m)).
  intros [[H|(x & _ & H)]|(x & _ & H)]; [done|discriminate|discriminate].
Qed.

Lemma admins_step_socket (s : Socket) :
  ("admins" ∈ rooms s -> exists d, data_user s = Some d /\ tok_role d = "vendor") ->
  forall s',
    (s' = joinAdminRoom s \/ s' = joinUserRoom s \/ s' = setPriceAlert s \/
     (exists cty st, s' = joinLocation cty st s) \/
     (exists makes bodyTypes, s' = joinInterests makes bodyTypes s)) ->
    "admins" ∈ rooms s' -> exists d, data_user s' = Some d /\ tok_role d = "vendor".
Proof.
  intros Hs s' [->|[->|[->|[(cty & st & ->)|(makes & bts & ->)]]]] Hin.
  - unfold joinAdminRoom in *. destruct (data_user s) as [d|] eqn:Hd; [|rewrite Hd; auto].
    destruct (bool_decide (tok_role d = "vendor")) eqn:Hv; [|rewrite Hd; auto].
    cbn. rewrite Hd. exists d. split; [done|]. by apply bool_decide_eq_true in Hv.
  - unfold joinUserRoom in *. destruct (data_user s) as [d|] eqn:Hd; [|rewrite Hd; auto].
    apply rooms_join in Hin as [H|H]; [discriminate|].
    cbn. rewrite Hd. apply Hs in H as (d' & Hd' & Hr). exists d'. split; congruence.
  - unfold setPriceAlert in *. destruct (data_user s) as [d|] eqn:Hd; [|rewrite Hd; auto].
    apply rooms_join in Hin as [H|H]; [discriminate|].
    cbn. rewrite Hd. apply Hs in H as (d' & Hd' & Hr). exists d'. split; congruence.
  - apply admins_not_by_joinLocation in Hin. by apply Hs.
  - apply admins_not_by_joinInterests in Hin.
    unfold joinInterests. rewrite !data_user_foldl_join. by apply Hs.
Qed.

Lemma admins_are_vendors_step verify ss e :
  e.1 <> "admins" ->
  admins_are_vendors ss -> admins_are_vendors (socket_step verify ss e).
Proof.
  destruct e as [sid ev]. cbn [fst]. intros Hsid Hinv sid' s'.
  assert (Halter : forall f,
    (forall s, f s = joinAdminRoom s \/ f s = joinUserRoom s \/ f s = setPriceAlert s \/
               (exists cty st, f s = joinLocation cty st s) \/
               (exists makes bodyTypes, f s = joinInterests makes bodyTypes s)) ->
    alter f sid ss !! sid' = Some s' -> "admins" ∈ rooms s' ->
    exists d, data_user s' = Some d /\ tok_role d = "vendor").
  { intros f Hf Hlook Hin. destruct (decide (sid = sid')) as [<-|Hne].
    - rewrite lookup_alter_eq in Hlook.
      destruct (ss !! sid) as [s|] eqn:Hs; [|done]. cbn in Hlook.
      injection Hlook as <-.
      apply (admins_step_socket s (Hinv sid s Hs) (f s) (Hf s) Hin).
    - rewrite lookup_alter_ne in Hlook by done. by apply (Hinv sid' s'). }
  destruct ev as [token|cty st|makes bts|q| | | | |]; cbn [socket_step fst snd].
  - unfold connect. intros Hlook Hin.
    destruct (decide (sid = sid')) as [<-|Hne].
    + rewrite lookup_insert_eq in Hlook. injection Hlook as <-. cbn in Hin.
      destruct (authenticate_socket verify token) as [d|].
      * apply elem_of_union in Hin as [Hin|Hin]; apply elem_of_singleton in Hin;
          [discriminate|congruence].
      * apply elem_of_singleton in Hin. congruence.
    + rewrite lookup_insert_ne in Hlook by done. by apply (Hinv sid' s').
  - apply Halter. intros s. right; right; right; left. eauto.
  - apply Halter. intros s. right; right; right; right. eauto.
  - apply Hinv.
  - apply Hinv.
  - apply Halter. intros s. by left.
  - apply Halter. intros s. right; by left.
  - apply Halter. intros s. right; right; by left.
  - intros Hlook. apply lookup_delete_Some in Hlook as [_ Hlook]. by apply (Hinv sid' s').
Qed.

(** Whatever clients do, in whatever order, the [admins] room only ever holds
    sockets that presented a valid token with role vendor (socket ids being
    server-generated, none is the string "admins"). *)
Theorem admins_room_holds_only_vendors
    (verify : string -> option Decoded) (es : list (string * ClientEvent))
    (ss : gmap string Socket) :
  Forall (fun e => e.1 <> "admins") es ->
  admins_are_vendors ss ->
  admins_are_vendors (socket_run verify es ss).
Proof.
  revert ss. induction es as [|e es IH]; intros ss Hids Hinv; [done|].
  apply Forall_cons in Hids as [He Hes].
  unfold socket_run. cbn [foldl]. apply IH; [done|].
  by apply admins_are_vendors_step.
Qed.

Lemma admins_room_holds_only_vendors_witness :
  admins_are_vendors
    (socket_run sample_verify
       [("s1", Connect None); ("s1", JoinAdminRoom);
        ("s2", Connect (Some "tok-v1")); ("s2", JoinAdminRoom);
        ("s1", JoinLocation "admins" "x")] ∅).
Proof.
  apply admins_room_holds_only_vendors.
  - repeat constructor; cbn; discriminate.
  - intros sid s H. by rewrite lookup_empty in H.
Defined.

(** Any socket, authenticated or not, enters the personal room of any user by
    asking for the location whose city is "user" and whose state is the user's
    id (ids are lower-case): it is then reached by every event sent to that
    user. *)
Theorem personal_room_is_open_through_joinLocation
    (verify : string -> option Decoded) (ss : gmap string Socket)
    (sid : string) (s : Socket) (userId ev : string) (p : Payload) (w : World) :
  ss !! sid = Some s ->
  io_ready w = true ->
  toLowerCase userId = userId ->
  exists e,
    emitToUser userId ev p w = Ok tt (push [e] w) /\
    event e = ev /\ payload e = p /\
    sid ∈ recipients (target e) (socket_step verify ss (sid, JoinLocation "user" userId)).
Proof.
  intros Hs Hio Hid. unfold emitToUser.
  eexists. split; [by apply emit_ready|]. split; [done|]. split; [done|].
  cbn [target socket_step fst snd]. apply elem_of_recipients_room.
  exists (joinLocation "user" userId s). split.
  - by rewrite lookup_alter_eq, Hs.
  - unfold joinLocation. apply rooms_join. left.
    change ("user" +:+ "_" +:+ userId) with ("user_" +:+ userId).
    rewrite toLowerCase_app, Hid. reflexivity.
Qed.

Lemma personal_room_is_open_through_joinLocation_witness :
  exists e,
    emitToUser "v1" "newInquiry" (NewListing camry) (sample_world [])
      = Ok tt (push [e] (sample_world [])) /\
    "s1" ∈ recipients (target e)
             (socket_step sample_verify (connect sample_verify "s1" None ∅)
                ("s1", JoinLocation "user" "v1")).
Proof.
  destruct (personal_room_is_open_through_joinLocation sample_verify
              (connect sample_verify "s1" None ∅) "s1"
              {| data_user := None; rooms := {["s1"]} |}
              "v1" "newInquiry" (NewListing camry) (sample_world []))
    as (e & He & _ & _ & Hin); try reflexivity.
  exists e. split; [exact He|exact Hin].
Defined.

Lemma connect_joins_personal_room verify (ss : gmap string Socket) sid token d :
  authenticate_socket verify token = Some d ->
  sid ∈ recipients (Room ("user_" +:+ tok_id d)) (connect verify sid token ss).
Proof.
  intros Hd. apply elem_of_recipients_room.
  eexists. split.
  - unfold connect. rewrite Hd. apply lookup_insert_eq.
  - cbn. set_solver.
Qed.

(** A connection whose token is missing, empty or does not verify is not
    refused: it is accepted as anonymous, sits in the room of its own id only,
    and its requests to join the admin room, its user room or a price-alert
    room change nothing.  A connection whose token verifies is placed in its
    personal room at once. *)
Theorem connection_is_anonymous_without_valid_token
    (verify : string -> option Decoded) (ss : gmap string Socket)
    (sid : string) (token : option string) :
  let ss' := connect verify sid token ss in
  (authenticate_socket verify token = None ->
     ss' !! sid = Some {| data_user := None; rooms := {[sid]} |} /\
     socket_step verify ss' (sid, JoinAdminRoom) = ss' /\
     socket_step verify ss' (sid, JoinUserRoom) = ss' /\
     socket_step verify ss' (sid, SetPriceAlert) = ss') /\
  (forall d, authenticate_socket verify token = Some d ->
     sid ∈ recipients (Room ("user_" +:+ tok_id d)) ss').
Proof.
  cbv zeta. split.
  - intros Hnone.
    assert (Hlook : connect verify sid token ss !! sid
                    = Some {| data_user := None; rooms := {[sid]} |}).
    { unfold connect. rewrite Hnone. apply lookup_insert_eq. }
    split; [exact Hlook|].
    cbn [socket_step fst snd].
    repeat split; apply alter_id; intros s Hs;
      rewrite Hlook in Hs; injection Hs as <-; reflexivity.
  - intros d Hd. by apply connect_joins_personal_room.
Qed.

Lemma connection_is_anonymous_without_valid_token_witness :
  connect sample_verify "s1" (Some "forged") ∅ !! "s1"
    = Some {| data_user := None; rooms := {["s1"]} |} /\
  "s2" ∈ recipients (Room "user_v1") (connect sample_verify "s2" (Some "tok-v1") ∅).
Proof.
  pose proof (connection_is_anonymous_without_valid_token sample_verify ∅ "s1"
                (Some "forged")) as H1.
  pose proof (connection_is_anonymous_without_valid_token sample_verify ∅ "s2"
                (Some "tok-v1")) as H2.
  cbv zeta in H1, H2. split.
  - apply H1. reflexivity.
  - apply (proj2 H2 {| tok_id := "v1"; tok_email := "vera@example.com";
                       tok_role := "vendor" |}). reflexivity.
Defined.

(** ** Inquiries, end to end *)

(** After a recorded inquiry the seller's room gets the two [newInquiry]
    events -- one from each notification service -- and then, only at the
    fifth inquiry, the milestone, in this order; a socket of the seller that
    connected with a valid token is reached by every one of them. *)
Theorem seller_socket_receives_inquiry_events
    (verify : string -> option Decoded) (ss : gmap string Socket)
    (sid tok : string) (d : Decoded)
    (now : Z) (u : User) (id : string) (w : World) (car : Car) :
  io_ready w = true ->
  List.find (has_id id) (cars w) = Some car ->
  authenticate_socket verify (Some tok) = Some d ->
  tok_id d = seller car ->
  exists milestone,
    outbox (world_of (post_inquiry now u id w)) =
      outbox w ++
        [ {| target := Room ("user_" +:+ seller car); event := "newInquiry";
             payload := Inquiry id (make car) (model car) (year car) (price car)
                          (user_name u) |};
          {| target := Room ("user_" +:+ seller car); event := "newInquiry";
             payload := VendorInquiry id (inc_inquiries now car) (user_name u)
                          now high |} ] ++ milestone /\
    Forall (fun e => event e = "performanceMilestone") milestone /\
    (length milestone <= 1)%nat /\
    (inquiries car + 1 <> 5 -> milestone = []) /\
    Forall (fun e => sid ∈ recipients (target e) (connect verify sid (Some tok) ss))
      ([ {| target := Room ("user_" +:+ seller car); event := "newInquiry";
            payload := Inquiry id (make car) (model car) (year car) (price car)
                         (user_name u) |};
         {| target := Room ("user_" +:+ seller car); event := "newInquiry";
            payload := VendorInquiry id (inc_inquiries now car) (user_name u)
                         now high |} ] ++ milestone).
Proof.
  intros Hio Hfind Hauth Htok.
  rewrite (post_inquiry_found _ _ _ _ _ Hio Hfind).
  pose proof (connect_joins_personal_room verify ss sid (Some tok) d Hauth) as Hc.
  rewrite Htok in Hc.
  eexists. split; [reflexivity|].
  destruct (inquiries car + 1 =? 5) eqn:E.
  - split; [repeat constructor|]. split; [cbn; lia|].
    split; [intros Hne; apply Z.eqb_eq in E; lia|].
    repeat constructor; exact Hc.
  - split; [constructor|]. split; [cbn; lia|]. split; [done|].
    repeat constructor; exact Hc.
Qed.

Lemma seller_socket_receives_inquiry_events_witness :
  exists milestone,
    length (outbox (world_of (post_inquiry 5000 buyer1 "c1" (sample_world [camry]))))
      = (2 + length milestone)%nat /\
    Forall (fun e => "s2" ∈ recipients (target e)
                       (connect sample_verify "s2" (Some "tok-v1") ∅)) milestone.
Proof.
  destruct (seller_socket_receives_inquiry_events sample_verify ∅ "s2" "tok-v1"
              {| tok_id := "v1"; tok_email := "vera@example.com"; tok_role := "vendor" |}
              5000 buyer1 "c1" (sample_world [camry]) camry
              eq_refl eq_refl eq_refl eq_refl)
    as (milestone & Hout & _ & _ & _ & Hall).
  exists milestone. split.
  - rewrite Hout. cbn [outbox sample_world app length]. reflexivity.
  - apply Forall_cons in Hall as [_ Hall]. apply Forall_cons in Hall as [_ Hall].
    exact Hall.
Defined.

(** ** Listing routes: who may change what *)



Lemma update_first_absent id f cs :
  List.find (has_id id) cs = None -> update_first id f cs = cs.
Proof.
  induction cs as [|c cs IH]; [done|]. cbn [List.find update_first].
  destruct (has_id id c); [done|]. intros H. by rewrite IH.
Qed.



(** The inquiry route before the socket server is initialised. *)
Lemma post_inquiry_unready now u id w car :
  io_ready w = false ->
  List.find (has_id id) (cars w) = Some car ->
  post_inquiry now u id w =
    Ok {| res_status := 500; res_message := "Server error" |}
       (set_cars (update_first id (inc_inquiries now) (cars w)) w).
Proof.
  intros Hio Hfind.
  set (w1 := set_cars (update_first id (inc_inquiries now) (cars w)) w).
  assert (Hfind1 : List.find (has_id id) (cars w1) = Some (inc_inquiries now car)).
  { cbn. rewrite find_update_first by apply inc_inquiries_id. by rewrite Hfind. }
  unfold post_inquiry, try_catch, bind, findById_param.
  rewrite Hfind. unfold findByIdAndUpdate_inc_inquiries. fold w1.
  unfold notifyInquiry, bind, findById. cbv beta.
  rewrite (find_has_id _ _ _ Hfind), Hfind1.
  unfold emitToUser, emit.
  change (io_ready w1) with (io_ready w). rewrite Hio. reflexivity.
Qed.



(** Before the socket server is initialised every inquiry on a stored
    listing is answered 500 -- and counted all the same: the failed
    notification does not undo the increment, so a client that repeats the
    request after each error raises the count once per attempt, while no
    event is recorded. *)
Theorem failed_inquiries_are_counted
    (nows : list Z) (u : User) (id : string) (w : World) (car : Car) :
  io_ready w = false ->
  List.find (has_id id) (cars w) = Some car ->
  (forall now, exists w',
     post_inquiry now u id w =
       Ok {| res_status := 500; res_message := "Server error" |} w' /\
     (inquiries <$> List.find (has_id id) (cars w')) = Some (inquiries car + 1)) /\
  (inquiries <$> List.find (has_id id) (cars (inquire_all nows u id w)))
    = Some (inquiries car + Z.of_nat (length nows)) /\
  outbox (inquire_all nows u id w) = outbox w.
Proof.
  intros Hio Hfind. split.
  - intros now. eexists. split; [exact (post_inquiry_unready _ _ _ _ _ Hio Hfind)|].
    cbn [cars set_cars]. rewrite find_update_first by apply inc_inquiries_id.
    by rewrite Hfind.
  - revert w car Hio Hfind. unfold inquire_all.
    induction nows as [|now nows IH]; intros w car Hio Hfind.
    + cbn. rewrite Hfind. cbn. split; [f_equal; lia|done].
    + cbn [foldl]. rewrite (post_inquiry_unready _ _ _ _ _ Hio Hfind).
      cbn [world_of].
      set (w1 := set_cars (update_first id (inc_inquiries now) (cars w)) w).
      assert (Hfind1 : List.find (has_id id) (cars w1) = Some (inc_inquiries now car)).
      { cbn. rewrite find_update_first by apply inc_inquiries_id. by rewrite Hfind. }
      destruct (IH w1 (inc_inquiries now car) Hio Hfind1) as [Hc Ho].
      rewrite Hc, Ho. split; [|done].
      cbn [inquiries inc_inquiries length]. f_equal. lia.
Qed.

Lemma failed_inquiries_are_counted_witness :
  (inquiries <$> List.find (has_id "c1")
     (cars (inquire_all [5000; 5001; 5002] buyer1 "c1"
              {| cars := [camry]; io_ready := false; outbox := [] |})))
  = Some 7.
Proof.
  exact (proj1 (proj2 (failed_inquiries_are_counted [5000; 5001; 5002] buyer1 "c1"
                         {| cars := [camry]; io_ready := false; outbox := [] |}
                         camry eq_refl eq_refl))).
Defined.

(** ** Favorites *)

Lemma inc_favorites_id now c : _id (inc_favorites now c) = _id c.
Proof. done. Qed.

(** Favoriting is not a toggle and is not per user: every request on an
    existing listing, whoever sends it, raises the counter by one, so [n]
    requests raise it by [n]; nothing else of the listing changes but
    [updatedAt]. *)
Theorem favorites_grow_with_every_request
    (reqs : list (Z * User)) (id : string) : forall (w : World) (car : Car),
  List.find (has_id id) (cars w) = Some car ->
  exists car',
    List.find (has_id id) (cars (favorite_all reqs id w)) = Some car' /\
    favorites car' = favorites car + Z.of_nat (length reqs) /\
    unlisted_part car' =
      (_id car, make car, model car, year car, originalPrice car, priceHistory car,
       location car, seller car, sellerType car, views car, inquiries car,
       favorites car + Z.of_nat (length reqs),
       listedAt car, lastUpdated car, soldAt car, createdAt car) /\
    (status car', featured car', urgent car', price car')
      = (status car, featured car, urgent car, price car) /\
    outbox (favorite_all reqs id w) = outbox w.
Proof.
  induction reqs as [|[now u] reqs IH]; intros w car Hfind.
  - exists car. cbn [favorite_all foldl length Z.of_nat].
    rewrite Z.add_0_r. done.
  - change (favorite_all ((now, u) :: reqs) id w)
      with (favorite_all reqs id (world_of (post_favorite now u id w))).
    assert (Hstep : world_of (post_favorite now u id w)
                    = set_cars (update_first id (inc_favorites now) (cars w)) w).
    { unfold post_favorite, try_catch, bind, findById_param. rewrite Hfind. reflexivity. }
    rewrite Hstep.
    destruct (IH (set_cars (update_first id (inc_favorites now) (cars w)) w)
                (inc_favorites now car)) as (car' & Hf & Hfav & Hun & Hrest & Hout).
    { cbn [cars set_cars]. rewrite find_update_first by apply inc_favorites_id.
      by rewrite Hfind. }
    exists car'. split; [exact Hf|].
    cbn [length]. rewrite Nat2Z.inj_succ.
    cbn [favorites inc_favorites] in Hfav.
    split; [lia|]. split.
    + rewrite Hun. cbn.
      replace (favorites car + 1 + Z.of_nat (length reqs))
        with (favorites car + Z.succ (Z.of_nat (length reqs))) by lia.
      reflexivity.
    + split; [exact Hrest|]. rewrite Hout. reflexivity.
Qed.

Lemma favorites_grow_with_every_request_witness :
  exists car',
    List.find (has_id "c1")
      (cars (favorite_all [(1, buyer1); (2, buyer1); (3, vendor1)] "c1"
               (sample_world [camry]))) = Some car' /\
    favorites car' = 3.
Proof.
  destruct (favorites_grow_with_every_request
              [(1, buyer1); (2, buyer1); (3, vendor1)] "c1"
              (sample_world [camry]) camry eq_refl)
    as (car' & Hf & Hfav & _).
  exists car'. split; [exact Hf|exact Hfav].
Defined.

(** ** Vendor analytics *)

Lemma sub_self_finite s m e :
  sub (S754_finite s m e) (S754_finite s m e) = S754_zero false.
Proof.
  unfold sub, SFsub.
  rewrite Z.sub_diag. reflexivity.
Qed.

(** A trend is 0 -- not an infinity, not a NaN -- when the previous value is
    zero, and it is a zero when a finite non-zero value did not change.  So
    with no listing older than thirty days (no previous-period row) all four
    trends of the analytics are 0, whatever the current figures. *)
Theorem trend_is_zero_without_baseline_or_change :
  (forall current previous,
     is_zero previous = true -> calculateTrend current previous = ofZ 0) /\
  (forall s m e,
     is_zero (calculateTrend (S754_finite s m e) (S754_finite s m e)) = true) /\
  (forall currentStats topPerforming performanceData popularMake,
     an_trends (analytics currentStats None topPerforming performanceData popularMake)
     = {| viewsChange := ofZ 0; inquiriesChange := ofZ 0;
          at_priceChange := ofZ 0; listingsChange := ofZ 0 |}).
Proof.
  split; [|split].
  - intros current previous Hz. unfold calculateTrend.
    destruct previous as [[]| | |]; try discriminate; reflexivity.
  - intros s m e. unfold calculateTrend.
    assert (Hne : strict_eq (S754_finite s m e) (ofZ 0) = false)
      by (destruct s; reflexivity).
    rewrite Hne, sub_self_finite. destruct s; reflexivity.
  - intros. reflexivity.
Qed.

Lemma trend_is_zero_without_baseline_or_change_witness :
  calculateTrend (ofZ 250) (ofZ 0) = ofZ 0 /\
  is_zero (calculateTrend (ofZ 250) (ofZ 250)) = true.
Proof.
  destruct trend_is_zero_without_baseline_or_change as (H0 & Hsame & _).
  split.
  - apply H0. reflexivity.
  - exact (Hsame false 8796093022208000%positive (-45)).
Defined.

(** ** Dashboard statistics *)

Lemma valid_status_not_total k :
  k ∈ valid_statuses ->
  k <> "totalValue" /\ k <> "totalViews" /\ k <> "totalInquiries" /\ k <> "avgPrice".
Proof.
  unfold valid_statuses. rewrite !elem_of_cons, elem_of_nil.
  intros [->|[->|[->|[->|[]]]]]; repeat split; discriminate.
Qed.

(** One step on a group named after a status: the three totals grow by the
    group's figures, the status gets the group's count, every other property
    stays. *)
Lemma stats_step_status (stats : gmap string number) item :
  row_id item ∈ valid_statuses ->
  prop "totalValue" (stats_step stats item)
    = add (prop "totalValue" stats) (or_else (row_totalValue item) (ofZ 0)) /\
  prop "totalViews" (stats_step stats item)
    = add (prop "totalViews" stats) (or_else (row_totalViews item) (ofZ 0)) /\
  prop "totalInquiries" (stats_step stats item)
    = add (prop "totalInquiries" stats) (or_else (row_totalInquiries item) (ofZ 0)) /\
  prop (row_id item) (stats_step stats item) = row_count item /\
  (forall k, k ∈ valid_statuses -> k <> row_id item ->
             prop k (stats_step stats item) = prop k stats).
Proof.
  intros Hid. destruct (valid_status_not_total _ Hid) as (H1 & H2 & H3 & _).
  unfold stats_step, prop. repeat split.
  - rewrite lookup_insert_ne, lookup_insert_ne, lookup_insert_eq by done.
    cbn. by rewrite lookup_insert_ne by done.
  - rewrite lookup_insert_ne, lookup_insert_eq by done. cbn.
    by rewrite !lookup_insert_ne by done.
  - rewrite lookup_insert_eq. cbn. by rewrite !lookup_insert_ne by done.
  - rewrite !lookup_insert_ne by done. by rewrite lookup_insert_eq.
  - intros k Hk Hne. destruct (valid_status_not_total _ Hk) as (K1 & K2 & K3 & _).
    by rewrite !lookup_insert_ne by done.
Qed.

Lemma stats_fold_status overview : forall (stats : gmap string number),
  Forall (fun r => row_id r ∈ valid_statuses) overview ->
  NoDup (row_id <$> overview) ->
  prop "totalValue" (foldl stats_step stats overview)
    = foldl (fun acc r => add acc (or_else (row_totalValue r) (ofZ 0)))
        (prop "totalValue" stats) overview /\
  prop "totalViews" (foldl stats_step stats overview)
    = foldl (fun acc r => add acc (or_else (row_totalViews r) (ofZ 0)))
        (prop "totalViews" stats) overview /\
  prop "totalInquiries" (foldl stats_step stats overview)
    = foldl (fun acc r => add acc (or_else (row_totalInquiries r) (ofZ 0)))
        (prop "totalInquiries" stats) overview /\
  (forall r, r ∈ overview -> prop (row_id r) (foldl stats_step stats overview) = row_count r) /\
  (forall k, k ∈ valid_statuses -> k ∉ row_id <$> overview ->
             prop k (foldl stats_step stats overview) = prop k stats).
Proof.
  induction overview as [|item rest IH]; intros stats Hall Hnd.
  - repeat split; try done. intros r Hr. by apply elem_of_nil in Hr.
  - apply Forall_cons in Hall as [Hid Hall].
    rewrite fmap_cons in Hnd. apply NoDup_cons in Hnd as [Hnotin Hnd].
    destruct (stats_step_status stats item Hid) as (S1 & S2 & S3 & S4 & S5).
    destruct (IH (stats_step stats item) Hall Hnd) as (I1 & I2 & I3 & I4 & I5).
    cbn [foldl]. rewrite I1, I2, I3, S1, S2, S3.
    split; [done|]. split; [done|]. split; [done|]. split.
    + intros r Hr. apply elem_of_cons in Hr as [->|Hr]; [|by apply I4].
      rewrite I5 by done. exact S4.
    + intros k Hk Hnot. rewrite fmap_cons in Hnot.
      apply not_elem_of_cons in Hnot as [Hne Hnot].
      rewrite I5 by done. by apply S5.
Qed.

(** When the overview has one group per status, the dashboard statistics
    mirror it: each status holds its group's count, a status without group
    holds 0, and the three totals are the sums of the groups' figures, taken
    in the order of the groups. *)
Theorem dashboard_stats_mirror_the_groups (overview : list OverviewRow) :
  Forall (fun r => row_id r ∈ valid_statuses) overview ->
  NoDup (row_id <$> overview) ->
  let stats := dashboard_stats overview in
  (forall r, r ∈ overview -> prop (row_id r) stats = row_count r) /\
  (forall k, k ∈ valid_statuses -> k ∉ row_id <$> overview -> prop k stats = ofZ 0) /\
  prop "totalValue" stats
    = foldl (fun acc r => add acc (or_else (row_totalValue r) (ofZ 0))) (ofZ 0) overview /\
  prop "totalViews" stats
    = foldl (fun acc r => add acc (or_else (row_totalViews r) (ofZ 0))) (ofZ 0) overview /\
  prop "totalInquiries" stats
    = foldl (fun acc r => add acc (or_else (row_totalInquiries r) (ofZ 0))) (ofZ 0) overview.
Proof.
  intros Hall Hnd. cbv zeta.
  destruct (stats_fold_status overview stats_init Hall Hnd) as (I1 & I2 & I3 & I4 & I5).
  assert (Hprop : forall k, k <> "avgPrice" ->
            prop k (dashboard_stats overview) = prop k (foldl stats_step stats_init overview)).
  { intros k Hk. unfold dashboard_stats, prop. by rewrite lookup_insert_ne. }
  split; [|split; [|split; [|split]]].
  - intros r Hr. rewrite Hprop; [by apply I4|].
    rewrite Forall_forall in Hall. by apply valid_status_not_total, Hall.
  - intros k Hk Hnot. rewrite Hprop by (by apply valid_status_not_total).
    rewrite I5 by done.
    revert Hk. unfold valid_statuses. rewrite !elem_of_cons, elem_of_nil.
    intros [->|[->|[->|[->|[]]]]]; reflexivity.
  - rewrite Hprop by done. exact I1.
  - rewrite Hprop by done. exact I2.
  - rewrite Hprop by done. exact I3.
Qed.

Lemma dashboard_stats_mirror_the_groups_witness :
  prop "sold" (dashboard_stats [sample_row "sold" 12 80; sample_row "active" 30 9])
    = ofZ 12 /\
  prop "pending" (dashboard_stats [sample_row "sold" 12 80; sample_row "active" 30 9])
    = ofZ 0.
Proof.
  assert (Hall : Forall (fun r => row_id r ∈ valid_statuses)
                   [sample_row "sold" 12 80; sample_row "active" 30 9]).
  { repeat constructor; apply (bool_decide_unpack _); vm_compute; exact I. }
  assert (Hnd : NoDup (row_id <$> [sample_row "sold" 12 80; sample_row "active" 30 9])).
  { apply (bool_decide_unpack _). vm_compute. exact I. }
  pose proof (dashboard_stats_mirror_the_groups _ Hall Hnd) as H.
  cbv zeta in H. destruct H as (Hcount & Hzero & _).
  split.
  - apply (Hcount (sample_row "sold" 12 80)). apply elem_of_cons. by left.
  - apply Hzero; apply (bool_decide_unpack _); vm_compute; exact I.
Defined.

(** ** The leads page *)

Lemma lead_car_leadOf now c : lead_car (leadOf now c) = c.
Proof.
  unfold leadOf, leadOfT, inquiryRateT, bindT, divT, retT.
  by destruct (gt (ofZ (views c)) (ofZ 0)).
Qed.

Lemma lead_cars_leadsWithScores now cs : lead_car <$> leadsWithScores now cs = cs.
Proof.
  unfold leadsWithScores. rewrite <- list_fmap_compose.
  rewrite <- (list_fmap_id cs) at 2. apply list_fmap_ext.
  intros i c _. apply lead_car_leadOf.
Qed.

Lemma StronglySorted_sublist_of {A} (R : relation A) (k l : list A) :
  k `sublist_of` l -> Sorted.StronglySorted R l -> Sorted.StronglySorted R k.
Proof.
  induction 1 as [|x k l Hsub IH|x k l Hsub IH]; intros Hl.
  - constructor.
  - apply Sorted.StronglySorted_inv in Hl as [Hl Hall]. constructor; [by apply IH|].
    rewrite Forall_forall in *. intros y Hy. apply Hall.
    by eapply elem_of_sublist.
  - apply Sorted.StronglySorted_inv in Hl as [Hl _]. by apply IH.
Qed.

Section LeadsProperties.

Variable sort_lastUpdated_desc : list Car -> list Car.
Hypothesis sort_permutes : forall cs, sort_lastUpdated_desc cs ≡ₚ cs.
Hypothesis sort_sorts : forall cs, Sorted.StronglySorted newer_first (sort_lastUpdated_desc cs).

Abbreviation leads_route := (get_leads sort_lastUpdated_desc).

Lemma leads_of_page now u page limit w :
  user_role u = "vendor" ->
  leads_of (leads_route now u page limit w)
  = leadsWithScores now
      (take (Pos.to_nat (default 20%positive limit))
         (drop ((Pos.to_nat (default 1%positive page) - 1)
                * Pos.to_nat (default 20%positive limit))
            (sort_lastUpdated_desc (filter (has_leads (user_id u)) (cars w))))).
Proof.
  intros Hrole. unfold get_leads. rewrite Hrole.
  by rewrite bool_decide_eq_true_2.
Qed.

(** A vendor's leads page shows listings of the collection that the vendor
    sells and that have at least one inquiry, newest update first, at most
    [limit] of them (20 when no limit is given); the reported total is the
    number of all such listings, whatever the page; a page that starts at or
    after the total is empty; anyone who is not a vendor gets 403. *)
Theorem leads_page_shows_own_inquired_listings
    (now : Z) (u : User) (page limit : option positive) (w : World) :
  let r := leads_route now u page limit w in
  let matching := filter (has_leads (user_id u)) (cars w) in
  (user_role u <> "vendor" -> r = LeadsError 403 "Vendor access required") /\
  (user_role u = "vendor" ->
   exists pg, r = LeadsOk (leads_of r) pg /\
     pg_total pg = Z.of_nat (length matching) /\
     (forall l, l ∈ leads_of r ->
        lead_car l ∈ cars w /\ seller (lead_car l) = user_id u /\
        0 < inquiries (lead_car l)) /\
     (length (leads_of r) <= Pos.to_nat (default 20%positive limit))%nat /\
     Sorted.StronglySorted newer_first (lead_car <$> leads_of r) /\
     ((length matching <=
        (Pos.to_nat (default 1%positive page) - 1)
        * Pos.to_nat (default 20%positive limit))%nat ->
      leads_of r = [])).
Proof.
  cbv zeta. split.
  - intros Hrole. unfold get_leads. by rewrite bool_decide_eq_false_2.
  - intros Hrole. rewrite (leads_of_page _ _ _ _ _ Hrole).
    set (k := Pos.to_nat (default 20%positive limit)).
    set (s := ((Pos.to_nat (default 1%positive page) - 1) * k)%nat).
    set (matching := filter (has_leads (user_id u)) (cars w)).
    assert (Hsub : take k (drop s (sort_lastUpdated_desc matching))
                   `sublist_of` sort_lastUpdated_desc matching).
    { etrans; [apply sublist_take|apply sublist_drop]. }
    eexists. split.
    { unfold get_leads. rewrite Hrole. rewrite bool_decide_eq_true_2 by done.
      cbn [negb]. reflexivity. }
    cbn [pg_total]. split; [done|]. split; [|split; [|split]].
    + intros l Hl. apply (list_elem_of_fmap_2 lead_car) in Hl.
      rewrite lead_cars_leadsWithScores in Hl.
      assert (Hin : lead_car l ∈ matching).
      { rewrite <- (sort_permutes matching).
        by eapply elem_of_sublist. }
      apply list_elem_of_filter in Hin as [[Hs Hi] Hc]. done.
    + unfold leadsWithScores. rewrite length_fmap, length_take. lia.
    + rewrite lead_cars_leadsWithScores.
      by apply (StronglySorted_sublist_of _ _ _ Hsub).
    + intros Hpast. rewrite drop_ge; [by rewrite take_nil|].
      by rewrite (sort_permutes matching).
Qed.

End LeadsProperties.

#[local] Instance newer_first_transitive : Transitive newer_first.
Proof. unfold newer_first. intros a b c. lia. Qed.

#[local] Instance newer_first_total : Total newer_first.
Proof. unfold newer_first. intros a b. lia. Qed.

Lemma stable_sort_permutes cs : stable_sort cs ≡ₚ cs.
Proof. apply sorting.merge_sort_Permutation. Qed.

Lemma stable_sort_sorts cs : Sorted.StronglySorted newer_first (stable_sort cs).
Proof. apply sorting.StronglySorted_merge_sort; apply _. Qed.

Lemma leads_page_shows_own_inquired_listings_witness :
  let r := get_leads stable_sort 90000 vendor1 None (Some 1%positive)
             (sample_world [camry; civic; corolla; rav4]) in
  (length (leads_of r) <= 1)%nat /\
  (forall l, l ∈ leads_of r -> seller (lead_car l) = "v1").
Proof.
  cbv zeta.
  pose proof (leads_page_shows_own_inquired_listings stable_sort
                stable_sort_permutes stable_sort_sorts
                90000 vendor1 None (Some 1%positive)
                (sample_world [camry; civic; corolla; rav4])) as H.
  cbv zeta in H. destruct H as [_ H].
  destruct (H eq_refl) as (pg & _ & _ & Hown & Hlen & _).
  split; [exact Hlen|].
  intros l Hl. by destruct (Hown l Hl) as (_ & Hs & _).
Defined.

(** Sorting by distinct keys has one result: two newest-first orders of the
    same listings agree when no two of the listings share [lastUpdated]. *)
Lemma newest_first_unique (l1 : list Car) : forall l2,
  NoDup (lastUpdated <$> l1) -> l1 ≡ₚ l2 ->
  Sorted.StronglySorted newer_first l1 -> Sorted.StronglySorted newer_first l2 ->
  l1 = l2.
Proof.
  induction l1 as [|a l1 IH]; intros l2 Hnd Hperm Hs1 Hs2.
  - by apply Permutation_nil_l in Hperm.
  - destruct l2 as [|b l2]; [by apply Permutation_nil_r in Hperm|].
    apply Sorted.StronglySorted_inv in Hs1 as [Hs1 Ha].
    apply Sorted.StronglySorted_inv in Hs2 as [Hs2 Hb].
    rewrite fmap_cons in Hnd. apply NoDup_cons in Hnd as [Hnotin Hnd].
    rewrite Forall_forall in Ha, Hb.
    assert (Hba : b ∈ a :: l1) by (rewrite Hperm; left).
    assert (Hab : a ∈ b :: l2) by (rewrite <- Hperm; left).
    assert (Heq : a = b).
    { apply elem_of_cons in Hba as [->|Hb1]; [done|].
      apply elem_of_cons in Hab as [->|Ha2]; [done|].
      pose proof (Ha b Hb1) as H1. pose proof (Hb a Ha2) as H2.
      unfold newer_first in H1, H2.
      exfalso. apply Hnotin. apply list_elem_of_fmap.
      exists b. split; [lia|done]. }
    subst b. f_equal. apply IH; [done| |done|done].
    by apply Permutation_cons_inv in Hperm.
Qed.

Lemma leads_pages_take (sorts : nat -> list Car -> list Car) now u limit n w L :
  user_role u = "vendor" ->
  (forall i, sorts i (filter (has_leads (user_id u)) (cars w)) = L) ->
  leads_pages sorts now u limit n w
  = leadsWithScores now (take (n * Pos.to_nat limit) L).
Proof.
  intros Hrole Hsame. unfold leads_pages. induction n as [|n IH].
  - done.
  - rewrite seq_S, fmap_app, join_app, IH. cbn [fmap list_fmap mjoin list_join Nat.add].
    rewrite app_nil_r, (leads_of_page _ _ _ _ _ _ Hrole). cbn [default from_option id].
    rewrite Nat2Pos.id by done. rewrite Hsame.
    replace (S n - 1)%nat with n by lia.
    unfold leadsWithScores. rewrite <- fmap_app. f_equal.
    rewrite take_take_drop. f_equal. lia.
Qed.

(** Reading the pages [1] to [n] of one size in turn, each page a query of
    its own that the database may order as it likes among equal keys: when
    no two of the vendor's listings with inquiries share [lastUpdated], and
    [n] pages are enough to hold the total, the pages concatenate to the whole
    sorted list, so that every such listing appears exactly once. *)
Theorem leads_pages_cover_every_lead_once
    (sorts : nat -> list Car -> list Car)
    (now : Z) (u : User) (limit : positive) (n : nat) (w : World) :
  (forall i cs, sorts i cs ≡ₚ cs) ->
  (forall i cs, Sorted.StronglySorted newer_first (sorts i cs)) ->
  user_role u = "vendor" ->
  NoDup (lastUpdated <$> filter (has_leads (user_id u)) (cars w)) ->
  (length (filter (has_leads (user_id u)) (cars w)) <= n * Pos.to_nat limit)%nat ->
  let all := leads_pages sorts now u limit n w in
  all = leadsWithScores now (sorts 0%nat (filter (has_leads (user_id u)) (cars w))) /\
  lead_car <$> all ≡ₚ filter (has_leads (user_id u)) (cars w) /\
  NoDup (lead_car <$> all).
Proof.
  intros Hperm Hsorted Hrole Hnd Hn. cbv zeta.
  set (matching := filter (has_leads (user_id u)) (cars w)) in *.
  assert (Hsame : forall i, sorts i matching = sorts 0%nat matching).
  { intros i. apply newest_first_unique; [| |done|done].
    - by rewrite (Hperm i matching).
    - by rewrite !Hperm. }
  rewrite (leads_pages_take sorts now u limit n w _ Hrole Hsame).
  rewrite take_ge by (by rewrite Hperm).
  split; [done|]. rewrite lead_cars_leadsWithScores.
  split; [apply Hperm|].
  rewrite Hperm. by apply (NoDup_fmap_1 lastUpdated).
Qed.

Lemma unstable_sort_permutes cs : unstable_sort cs ≡ₚ cs.
Proof.
  unfold unstable_sort. rewrite sorting.merge_sort_Permutation. apply reverse_Permutation.
Qed.

Lemma unstable_sort_sorts cs : Sorted.StronglySorted newer_first (unstable_sort cs).
Proof. apply sorting.StronglySorted_merge_sort; apply _. Qed.

(** With two listings updated at the same time the pages need not cover the
    leads: if the database breaks the tie one way for the first page and the
    other way for the second, one listing is returned on both pages and the
    other on none. *)
Lemma leads_pages_with_ties_can_repeat_and_skip :
  let sorts := fun i : nat => match i with O => stable_sort | S _ => unstable_sort end in
  (forall i cs, sorts i cs ≡ₚ cs /\ Sorted.StronglySorted newer_first (sorts i cs)) /\
  filter (has_leads (user_id vendor1)) [camry; corolla] = [camry; corolla] /\
  lead_car <$> leads_pages sorts 90000 vendor1 1 2 (sample_world [camry; corolla])
    = [camry; camry].
Proof.
  cbv zeta. split; [|split].
  - intros [|i] cs.
    + split; [apply stable_sort_permutes|apply stable_sort_sorts].
    + split; [apply unstable_sort_permutes|apply unstable_sort_sorts].
  - vm_compute. reflexivity.
  - vm_compute. reflexivity.
Qed.

Lemma leads_pages_cover_every_lead_once_witness :
  lead_car <$> leads_pages (fun _ => stable_sort) 90000 vera 1 2
                 (sample_world [accord; sold_pilot; civic])
  ≡ₚ [accord; sold_pilot].
Proof.
  assert (Hnd : NoDup (lastUpdated <$> filter (has_leads (user_id vera))
                         (cars (sample_world [accord; sold_pilot; civic])))).
  { apply (bool_decide_unpack _). vm_compute. exact I. }
  assert (Hn : (length (filter (has_leads (user_id vera))
                          (cars (sample_world [accord; sold_pilot; civic])))
                <= 2 * Pos.to_nat 1)%nat).
  { vm_compute. lia. }
  exact (proj1 (proj2 (leads_pages_cover_every_lead_once (fun _ => stable_sort)
                  90000 vera 1 2 (sample_world [accord; sold_pilot; civic])
                  (fun _ => stable_sort_permutes) (fun _ => stable_sort_sorts)
                  eq_refl Hnd Hn))).
Defined.

(** ** Updating the price *)

Lemma with_price_id p t now c : _id (with_price p t now c) = _id c.
Proof. reflexivity. Qed.

Lemma with_price_valid p t now c :
  is_nan p = false -> schema_valid c = true ->
  schema_valid (with_price p t now c) = true.
Proof.
  intros Hp. unfold schema_valid. cbn.
  destruct (strict_eq p (price c)); [done|]. rewrite Hp.
  by destruct (is_nan (price c)); rewrite ?andb_false_r.
Qed.

Lemma update_first_other id f cs i c :
  cs !! i = Some c -> _id c <> id -> update_first id f cs !! i = Some c.
Proof.
  revert i. induction cs as [|c0 cs IH]; intros i Hi Hne; [done|].
  cbn [update_first]. destruct (has_id id c0) eqn:E.
  - destruct i as [|i]; [|done]. cbn in Hi. injection Hi as ->.
    unfold has_id in E. by apply bool_decide_eq_true in E.
  - destruct i as [|i]; [done|]. by apply (IH i).
Qed.

(** A price update by the seller of a stored listing that passes the schema's
    validation.  With the socket
    server initialised the request is answered 200; the stored listing gets
    the new price, [lastUpdated] is set, and no other listing changes.  When
    the new price is non-zero and differs from the stored one the change is
    tracked: one entry is added to the price history, and if the price falls
    by more than five percent the two [priceAlert] events are emitted, carrying
    the listing as it was stored before the update.  A change that is not
    tracked (in particular a price of zero) adds no history entry and emits
    nothing.  Without the socket server a tracked change is answered 500 and
    nothing is stored. *)
Theorem price_update_is_tracked_and_announced
    (now : Z) (u : User) (id : string) (newPrice : number) (w : World) (car : Car) :
  List.find (has_id id) (cars w) = Some car ->
  seller car = user_id u ->
  schema_valid car = true ->
  is_nan newPrice = false ->
  let o := put_price now u id newPrice w in
  let tracked := truthy newPrice && negb (strict_eq newPrice (price car)) in
  (io_ready w = true ->
   o = Ok {| res_status := 200; res_message := "Car updated successfully" |} (world_of o) /\
   (exists car', List.find (has_id id) (cars (world_of o)) = Some car' /\
      (strict_eq newPrice (price car) = false -> price car' = newPrice) /\
      priceHistory car' =
        priceHistory car ++
        (if tracked then [ {| pe_price := newPrice; pe_date := now |} ] else []) /\
      lastUpdated car' = now /\
      originalPrice car' = originalPrice car /\ seller car' = seller car /\
      status car' = status car) /\
   (forall i c, cars w !! i = Some c -> _id c <> id ->
                cars (world_of o) !! i = Some c) /\
   outbox (world_of o) =
     outbox w ++
     (if tracked && lt (priceChange (price car) newPrice) (ofZ (-5))
      then priceAlert_events car newPrice else [])) /\
  (io_ready w = false -> tracked = true ->
   o = Ok {| res_status := 500; res_message := "Server error" |} w).
Proof.
  intros Hfind Hown Hvalid Hnan. cbv zeta.
  pose proof (find_has_id _ _ _ Hfind) as Hid.
  unfold put_price, try_catch, bind, findById_param. rewrite Hfind.
  rewrite bool_decide_eq_true_2 by done. cbn [negb].
  set (tracked := truthy newPrice && negb (strict_eq newPrice (price car))).
  assert (Hframe : forall i c, cars w !! i = Some c -> _id c <> id ->
            update_first id (with_price newPrice tracked now) (cars w) !! i = Some c).
  { intros i c. apply update_first_other. }
  assert (Hstored : List.find (has_id id)
                      (update_first id (with_price newPrice tracked now) (cars w))
                    = Some (with_price newPrice tracked now car)).
  { rewrite find_update_first by apply with_price_id. by rewrite Hfind. }
  split.
  - intros Hio. destruct tracked eqn:Ht.
    + rewrite Hid, (notifyPriceChange_found w id car _ _ Hio Hfind).
      unfold save_price, respond, ret.
      rewrite (with_price_valid _ _ _ _ Hnan Hvalid), Hid.
      destruct (lt (priceChange (price car) newPrice) (ofZ (-5)));
        cbn [world_of cars set_cars push outbox andb].
      * split; [done|]. split; [|split; [done|done]].
        eexists. split; [exact Hstored|]. cbn.
        split; [by intros ->|]. done.
      * split; [done|]. split; [|split; [done|by rewrite app_nil_r]].
        eexists. split; [exact Hstored|]. cbn.
        split; [by intros ->|]. done.
    + unfold save_price, respond, ret.
      rewrite (with_price_valid _ _ _ _ Hnan Hvalid), Hid.
      cbn [world_of cars set_cars outbox andb].
      split; [done|]. split; [|split; [done|by rewrite app_nil_r]].
      eexists. split; [exact Hstored|]. cbn.
      split; [by intros ->|]. by rewrite app_nil_r.
  - intros Hio ->. rewrite Hid.
    unfold notifyPriceChange, bind, findById, getIO. by rewrite Hfind, Hio.
Qed.

Lemma price_update_is_tracked_and_announced_witness :
  let o := put_price 3000 vendor1 "c1" (ofZ 94) (sample_world [camry; civic]) in
  outbox (world_of o) = priceAlert_events camry (ofZ 94) /\
  cars (world_of o) !! 1%nat = Some civic.
Proof.
  cbv zeta.
  pose proof (price_update_is_tracked_and_announced 3000 vendor1 "c1" (ofZ 94)
                (sample_world [camry; civic]) camry eq_refl eq_refl eq_refl eq_refl) as H.
  cbv zeta in H. destruct H as [H _].
  destruct (H eq_refl) as (_ & _ & Hframe & Hout).
  split.
  - rewrite Hout. vm_compute. reflexivity.
  - apply Hframe; [reflexivity|]. cbn. discriminate.
Defined.

(** ** Vendor alerts *)

Lemma countDocuments_pos (P : Car -> Prop) `{!forall c, Decision (P c)} cs :
  (0 <? countDocuments P cs) = true <-> exists c, c ∈ cs /\ P c.
Proof.
  unfold countDocuments. rewrite Z.ltb_lt. split.
  - intros Hpos. destruct (filter P cs) as [|c rest] eqn:Hf; [cbn in Hpos; lia|].
    exists c. assert (Hc : c ∈ filter P cs) by (rewrite Hf; left).
    apply list_elem_of_filter in Hc as [Hp Hin]. done.
  - intros (c & Hin & Hp).
    assert (Hc : c ∈ filter P cs) by (by apply list_elem_of_filter).
    destruct (filter P cs); [by apply elem_of_nil in Hc|]. cbn. lia.
Qed.

Lemma countDocuments_within (P Q : Car -> Prop)
    `{!forall c, Decision (P c)} `{!forall c, Decision (Q c)} cs :
  (forall c, P c -> Q c) ->
  countDocuments P (filter Q cs) = countDocuments P cs.
Proof.
  intros Himp. unfold countDocuments. f_equal. f_equal.
  induction cs as [|c cs IH]; [done|].
  rewrite (filter_cons Q), (filter_cons P).
  destruct (decide (Q c)) as [Hq|Hq].
  - rewrite (filter_cons P). destruct (decide (P c)); by rewrite IH.
  - destruct (decide (P c)) as [Hp|Hp]; [by destruct Hq; apply Himp|done].
Qed.

(** Membership of a title in a list of titles against a decided condition. *)
Ltac solve_title :=
  split;
  [ intros Hh;
    first [ reflexivity
          | exfalso; repeat (destruct Hh as [Hh|Hh]; [discriminate|]);
            first [discriminate | destruct Hh] ]
  | intros Hh;
    first [ discriminate
          | repeat (first [left; reflexivity | right]) ] ].

(** The alerts of a vendor are computed from the vendor's own active listings
    alone: listings of other sellers and listings that are not active never
    change them.  A low-inventory warning is raised exactly when fewer than
    five of them exist (so always for a vendor without listings); the
    high-interest notice exactly when some listing has at least 5 inquiries
    and at least 100 views; the price-review notice exactly when some listing
    is at least thirty days old with at most 20 views.  No listing counts for
    both of the latter notices. *)
Theorem vendor_alerts_come_from_own_active_listings
    (now : Z) (vendorId : string) (cs : list Car) :
  let alerts := getVendorAlerts now vendorId cs in
  let titles := alert_title <$> alerts in
  alerts = getVendorAlerts now vendorId (filter (vendor_active vendorId) cs) /\
  (length alerts <= 3)%nat /\
  ("Low Inventory" ∈ titles <->
     (length (filter (vendor_active vendorId) cs) < 5)%nat) /\
  ("High Interest Cars" ∈ titles <-> exists c, c ∈ cs /\ high_interest vendorId c) /\
  ("Price Review Needed" ∈ titles <-> exists c, c ∈ cs /\ old_listing now vendorId c) /\
  (forall c, high_interest vendorId c -> ~ old_listing now vendorId c).
Proof.
  cbv zeta. split; [|split; [|split; [|split; [|split]]]].
  - unfold getVendorAlerts.
    rewrite (countDocuments_within (vendor_active vendorId) (vendor_active vendorId)) by done.
    rewrite (countDocuments_within (high_interest vendorId) (vendor_active vendorId))
      by (by intros c (? & ? & _)).
    rewrite (countDocuments_within (old_listing now vendorId) (vendor_active vendorId))
      by (by intros c (? & ? & _)).
    reflexivity.
  - unfold getVendorAlerts.
    destruct (_ <? 5), (0 <? countDocuments (high_interest _) _),
      (0 <? countDocuments (old_listing _ _) _); cbn; lia.
  - assert (Hlow : (countDocuments (vendor_active vendorId) cs <? 5) = true <->
                   (length (filter (vendor_active vendorId) cs) < 5)%nat).
    { unfold countDocuments. rewrite Z.ltb_lt. lia. }
    rewrite <- Hlow. unfold getVendorAlerts.
    destruct (_ <? 5), (0 <? countDocuments (high_interest _) _),
      (0 <? countDocuments (old_listing _ _) _); cbn;
      rewrite ?elem_of_cons, ?elem_of_nil; solve_title.
  - assert (Hhigh : (0 <? countDocuments (high_interest vendorId) cs) = true <->
                    exists c, c ∈ cs /\ high_interest vendorId c)
      by apply countDocuments_pos.
    rewrite <- Hhigh. unfold getVendorAlerts.
    destruct (_ <? 5), (0 <? countDocuments (high_interest _) _),
      (0 <? countDocuments (old_listing _ _) _); cbn;
      rewrite ?elem_of_cons, ?elem_of_nil; solve_title.
  - assert (Hold : (0 <? countDocuments (old_listing now vendorId) cs) = true <->
                   exists c, c ∈ cs /\ old_listing now vendorId c)
      by apply countDocuments_pos.
    rewrite <- Hold. unfold getVendorAlerts.
    destruct (_ <? 5), (0 <? countDocuments (high_interest _) _),
      (0 <? countDocuments (old_listing _ _) _); cbn;
      rewrite ?elem_of_cons, ?elem_of_nil; solve_title.
  - intros c (_ & _ & _ & Hv) (_ & _ & _ & Hv'). lia.
Qed.

Lemma vendor_alerts_come_from_own_active_listings_witness :
  "Low Inventory" ∈ alert_title <$> getVendorAlerts 90000 "v1" [camry; civic] /\
  getVendorAlerts 90000 "v1" [camry; civic] = getVendorAlerts 90000 "v1" [camry].
Proof.
  pose proof (vendor_alerts_come_from_own_active_listings 90000 "v1" [camry; civic]) as H.
  cbv zeta in H. destruct H as (Hown & _ & Hlow & _).
  split; [|exact Hown].
  apply Hlow. vm_compute. lia.
Defined.
